(** * PDF signing tool: coordinate mapper, fit compositor and server handlers

    A shallow embedding of
    - [client/src/lib/Coord.js]            ([clamp01], [cssBoxToPdfPoints]),
    - the aspect-ratio fit block of [server/server.js],
      [server/controllers/signController.js] and [PdfEditor.jsx],
    - the [/api/upload-pdf] and [/api/sign-pdf-multi] handlers of
      [server/server.js],
    - the [/api/check-pdf] and [/api/sign-pdf] handlers and the file name
      multer gives an upload, in [server/server.js]; [signPdfHandler] of
      [server/controllers/signController.js]; [server/fix-paths.js],
    - the state helpers of [client/src/components/PdfEditor.jsx]: the boxes
      and the selection, [exportCoords], [signSelected], [signAllPages],
      [uploadPdfFile], [sha256HexOfFile] and [burnInLocallyMultiple].

    JavaScript numbers are modelled by [num]: an exact rational (canonical,
    [Qc]) or one of the IEEE special values NaN, +Infinity, -Infinity.  The
    arithmetic follows IEEE 754 on the special values and is exact on the
    rationals: binary64 rounding and overflow are abstracted, and the two
    zeros are identified (a zero divisor counts as +0). *)

From Stdlib Require Import QArith Qcanon Qround Lqa Lia Ascii String.
From stdpp Require Import base option list strings pretty gmap.

Local Open Scope Qc_scope.

(** ** JavaScript numbers *)

Module JS.

Inductive num : Type :=
| Fin (q : Qc)
| PInf
| NInf
| NaN.

Definition qc (n : Z) (d : positive) : Qc := Q2Qc (n # d).
Definition ofZ (z : Z) : num := Fin (qc z 1).

Definition Qc_ltb (a b : Qc) : bool :=
  match a ?= b with Lt => true | _ => false end.
Definition Qc_eqb (a b : Qc) : bool :=
  match a ?= b with Eq => true | _ => false end.

Definition num_eqb (a b : num) : bool :=
  match a, b with
  | Fin x, Fin y => Qc_eqb x y
  | PInf, PInf | NInf, NInf | NaN, NaN => true
  | _, _ => false
  end.

(** The sign of a number that is not NaN. *)
Definition sgn (a : num) : comparison :=
  match a with
  | Fin q => q ?= 0
  | PInf => Gt
  | NInf => Lt
  | NaN => Eq
  end.

Definition inf_of (s : comparison) : num :=
  match s with Gt => PInf | Lt => NInf | Eq => NaN end.

Definition sgn_mul (s t : comparison) : comparison :=
  match s, t with
  | Eq, _ | _, Eq => Eq
  | Gt, Gt | Lt, Lt => Gt
  | _, _ => Lt
  end.

Definition neg (a : num) : num :=
  match a with
  | Fin q => Fin (- q)
  | PInf => NInf
  | NInf => PInf
  | NaN => NaN
  end.

(** [a + b] *)
Definition add (a b : num) : num :=
  match a, b with
  | NaN, _ | _, NaN => NaN
  | Fin x, Fin y => Fin (x + y)
  | PInf, NInf | NInf, PInf => NaN
  | PInf, _ | _, PInf => PInf
  | NInf, _ | _, NInf => NInf
  end.

(** [a - b] *)
Definition sub (a b : num) : num := add a (neg b).

(** [a * b]: infinity times zero is NaN. *)
Definition mul (a b : num) : num :=
  match a, b with
  | NaN, _ | _, NaN => NaN
  | Fin x, Fin y => Fin (x * y)
  | _, _ => inf_of (sgn_mul (sgn a) (sgn b))
  end.

(** [a / b]: a finite number over an infinity is zero, a non-zero number
    over zero is an infinity, 0/0 and inf/inf are NaN. *)
Definition div (a b : num) : num :=
  match a, b with
  | NaN, _ | _, NaN => NaN
  | Fin x, Fin y =>
      if Qc_eqb y 0 then inf_of (x ?= 0) else Fin (x / y)
  | Fin _, _ => Fin 0
  | _, Fin y => inf_of (sgn_mul (sgn a) (match y ?= 0 with Lt => Lt | _ => Gt end))
  | _, _ => NaN
  end.

(** [a > b] and [a < b]: false as soon as one side is NaN. *)
Definition ltb (a b : num) : bool :=
  match a, b with
  | NaN, _ | _, NaN => false
  | Fin x, Fin y => Qc_ltb x y
  | NInf, NInf | PInf, _ | _, NInf => false
  | _, _ => true
  end.
Definition gtb (a b : num) : bool := ltb b a.


(** [Number.isFinite] on a number (the global [isFinite] agrees on numbers). *)
Definition isFinite (a : num) : bool :=
  match a with Fin _ => true | _ => false end.

(** [Math.max(a, b)] and [Math.min(a, b)]: NaN if either argument is. *)
Definition Math_max (a b : num) : num :=
  match a, b with
  | NaN, _ | _, NaN => NaN
  | _, _ => if ltb a b then b else a
  end.
Definition Math_min (a b : num) : num :=
  match a, b with
  | NaN, _ | _, NaN => NaN
  | _, _ => if ltb b a then b else a
  end.

(** [Math.round(a)]: the closest integer, ties towards +Infinity. *)
Definition round_half_up (q : Qc) : Z := Qfloor (q + qc 1 2).
Definition Math_round (a : num) : num :=
  match a with
  | Fin q => ofZ (round_half_up q)
  | _ => a
  end.

(** [Number(a.toFixed(6))].  [toFixed] prints the integer [n] closest to
    [|a| * 10^6] (the larger one on a tie) with six decimals and the sign of
    [a]; from [10^21] on it prints the number itself, as it does for NaN and
    the infinities.  [Number] reads the digits back. *)
Definition toFixed6 (a : num) : num :=
  match a with
  | Fin q =>
      let m := if Qc_ltb q 0 then - q else q in
      if Qc_ltb m (qc (10 ^ 21) 1) then
        let n := round_half_up (m * qc 1000000 1) in
        Fin (qc (if Qc_ltb q 0 then - n else n)%Z 1000000)
      else Fin q
  | _ => a
  end.

(** ** JavaScript values and coercions

    The primitive values a property read from JSON, form data or component
    state can hold; [VUndefined] is also what reading an absent property
    gives.  Strings are sequences of ASCII characters. *)

Inductive value : Type :=
| VUndefined
| VNull
| VBool (b : bool)
| VNum (n : num)
| VStr (s : string).

(** [ToBoolean]: [undefined], [null], [false], [0], [NaN] and the empty
    string are falsy. *)
Definition truthy (v : value) : bool :=
  match v with
  | VUndefined | VNull => false
  | VBool b => b
  | VNum (Fin q) => negb (Qc_eqb q 0)
  | VNum NaN => false
  | VNum _ => true
  | VStr s => negb (String.eqb s EmptyString)
  end.

(** [a || b] *)
Definition js_or (a b : value) : value := if truthy a then a else b.

(** *** [StringToNumber] *)

Definition is_space (c : ascii) : bool :=
  let n := nat_of_ascii c in
  ((9 <=? n) && (n <=? 13) || (n =? 32))%nat.

Fixpoint drop_space (s : list ascii) : list ascii :=
  match s with
  | c :: r => if is_space c then drop_space r else s
  | [] => []
  end.

Definition trim (s : list ascii) : list ascii :=
  rev (drop_space (rev (drop_space s))).

Definition digit_of (base : Z) (c : ascii) : option Z :=
  let n := Z.of_nat (nat_of_ascii c) in
  let d := (if (48 <=? n) && (n <=? 57) then n - 48
            else if (97 <=? n) && (n <=? 102) then n - 87
            else if (65 <=? n) && (n <=? 70) then n - 55
            else base)%Z in
  if (d <? base)%Z then Some d else None.

(** Reads the longest prefix of digits: its value, its length, the rest. *)
Fixpoint read_digits (base acc : Z) (len : nat) (s : list ascii)
  : Z * nat * list ascii :=
  match s with
  | c :: r =>
      match digit_of base c with
      | Some d => read_digits base (acc * base + d)%Z (S len) r
      | None => (acc, len, s)
      end
  | [] => (acc, len, [])
  end.

Definition read_sign (s : list ascii) : Z * list ascii :=
  match s with
  | "+"%char :: r => (1%Z, r)
  | "-"%char :: r => ((-1)%Z, r)
  | _ => (1%Z, s)
  end.

(** A whole string of digits in the given base. *)
Definition read_int (base : Z) (s : list ascii) : num :=
  match read_digits base 0%Z 0%nat s with
  | (v, S _, []) => ofZ v
  | _ => NaN
  end.

Definition pow10 (e : Z) : Qc := Q2Qc (Qpower (10 # 1) e).

(** [StrDecimalLiteral]: sign, digits with an optional fraction, optional
    exponent. *)
Definition read_decimal (s : list ascii) : num :=
  let (sg, s1) := read_sign s in
  if decide (s1 = list_ascii_of_string "Infinity") then
    inf_of (sg ?= 0)%Z
  else
    let '(ip, ni, s2) := read_digits 10%Z 0%Z 0%nat s1 in
    let '(fp, nf, s3) :=
      match s2 with
      | "."%char :: r => read_digits 10%Z 0%Z 0%nat r
      | _ => (0%Z, 0%nat, s2)
      end in
    match (ni + nf)%nat with
    | O => NaN
    | S _ =>
        let m := qc sg 1 * (qc ip 1 + qc fp 1 * pow10 (- Z.of_nat nf)) in
        match s3 with
        | [] => Fin m
        | c :: r =>
            if (nat_of_ascii c =? 101)%nat || (nat_of_ascii c =? 69)%nat then
              let (es, r1) := read_sign r in
              match read_digits 10%Z 0%Z 0%nat r1 with
              | (ev, S _, []) => Fin (m * pow10 (es * ev))
              | _ => NaN
              end
            else NaN
        end
    end.

Definition StringToNumber (s : string) : num :=
  match trim (list_ascii_of_string s) with
  | [] => ofZ 0
  | "0"%char :: p :: r =>
      let n := nat_of_ascii p in
      if ((n =? 120) || (n =? 88))%nat then read_int 16%Z r
      else if ((n =? 111) || (n =? 79))%nat then read_int 8%Z r
      else if ((n =? 98) || (n =? 66))%nat then read_int 2%Z r
      else read_decimal ("0"%char :: p :: r)
  | t => read_decimal t
  end.

(** [Number(v)], that is [ToNumber]. *)
Definition Number (v : value) : num :=
  match v with
  | VUndefined => NaN
  | VNull => ofZ 0
  | VBool true => ofZ 1
  | VBool false => ofZ 0
  | VNum n => n
  | VStr s => StringToNumber s
  end.

End JS.

(** ** The coordinate mapper: [client/src/lib/Coord.js] *)

Module Coord.
Import JS.

(** [{left, top, width, height}], CSS pixels, top-left origin.  A field holds
    any value; an absent one reads as [VUndefined]. *)
Module CssBox.
Record t : Type := mk { left : value; top : value; width : value; height : value }.
End CssBox.

(** [{width, height}]: the rendered size in pixels, the page size in points. *)
Module Size.
Record t : Type := mk { width : value; height : value }.
End Size.

(** [{x, y, width, height}], PDF points, bottom-left origin. *)
Module PdfBox.
Record t : Type := mk { x : num; y : num; width : num; height : num }.
End PdfBox.

Module Fractions.
Record t : Type := mk { x_frac : num; y_frac : num; w_frac : num; h_frac : num }.
End Fractions.

Record Mapped : Type := mkMapped { pdfBox : PdfBox.t; fractions : Fractions.t }.

(** [Math.max(0, Math.min(1, isFinite(v) ? v : 0))] *)
Definition clamp01 (v : num) : num :=
  Math_max (ofZ 0) (Math_min (ofZ 1) (if isFinite v then v else ofZ 0)).

(** [function rnd(v) { return Math.round(v * 100) / 100; }] *)
Definition rnd (v : num) : num := div (Math_round (mul v (ofZ 100))) (ofZ 100).

(** [rW > 0 ? rW : 1] *)
Definition safe (d : num) : num := if gtb d (ofZ 0) then d else ofZ 1.

Definition cssBoxToPdfPoints (cssBox : CssBox.t) (renderedSize pageSizePoints : Size.t)
  : Mapped :=
  let left := Number (js_or (CssBox.left cssBox) (VNum (ofZ 0))) in
  let top := Number (js_or (CssBox.top cssBox) (VNum (ofZ 0))) in
  let widthPx := Number (js_or (CssBox.width cssBox) (VNum (ofZ 0))) in
  let heightPx := Number (js_or (CssBox.height cssBox) (VNum (ofZ 0))) in

  let rW := Number (js_or (Size.width renderedSize) (VNum (ofZ 1))) in
  let rH := Number (js_or (Size.height renderedSize) (VNum (ofZ 1))) in
  let pW := Number (js_or (Size.width pageSizePoints) (VNum (ofZ 1))) in
  let pH := Number (js_or (Size.height pageSizePoints) (VNum (ofZ 1))) in

  let safeRW := safe rW in
  let safeRH := safe rH in
  let safePW := safe pW in
  let safePH := safe pH in

  let x_frac := clamp01 (div left safeRW) in
  let y_frac := clamp01 (div top safeRH) in
  let w_frac := clamp01 (div widthPx safeRW) in
  let h_frac := clamp01 (div heightPx safeRH) in

  let x_pts := mul x_frac safePW in
  let width_pts := mul w_frac safePW in

  let bottomPx := sub (sub safeRH top) heightPx in
  let y_frac_from_bottom := clamp01 (div bottomPx safeRH) in
  let y_pts := mul y_frac_from_bottom safePH in
  let height_pts := mul h_frac safePH in

  {| pdfBox :=
       {| PdfBox.x := rnd x_pts;
          PdfBox.y := rnd y_pts;
          PdfBox.width := rnd width_pts;
          PdfBox.height := rnd height_pts |};
     fractions :=
       {| Fractions.x_frac := toFixed6 x_frac;
          Fractions.y_frac := toFixed6 y_frac;
          Fractions.w_frac := toFixed6 w_frac;
          Fractions.h_frac := toFixed6 h_frac |} |}.

(** What [clamp01] and [rnd] compute on a rational. *)
Definition clampQ (q : Qc) : Qc :=
  if Qc_ltb q 0 then 0 else if Qc_ltb 1 q then 1 else q.
Definition rndQ (q : Qc) : Qc :=
  qc (round_half_up (q * qc 100 1)) 1 / qc 100 1.


(** What [toFixed6] computes on a rational of [[0, 1]]. *)
Definition fix6Q (c : Qc) : Qc :=
  qc (round_half_up (c * qc 1000000 1)) 1000000.





(** The four scalar fields of a pixel box. *)
Inductive field : Type := Left | Top | Width | Height.

Definition get_field (f : field) (b : CssBox.t) : value :=
  match f with
  | Left => CssBox.left b
  | Top => CssBox.top b
  | Width => CssBox.width b
  | Height => CssBox.height b
  end.

Definition set_field (f : field) (v : value) (b : CssBox.t) : CssBox.t :=
  match f with
  | Left => CssBox.mk v (CssBox.top b) (CssBox.width b) (CssBox.height b)
  | Top => CssBox.mk (CssBox.left b) v (CssBox.width b) (CssBox.height b)
  | Width => CssBox.mk (CssBox.left b) (CssBox.top b) v (CssBox.height b)
  | Height => CssBox.mk (CssBox.left b) (CssBox.top b) (CssBox.width b) v
  end.


Definition pdfBox_eqb (a b : PdfBox.t) : bool :=
  num_eqb (PdfBox.x a) (PdfBox.x b) && num_eqb (PdfBox.y a) (PdfBox.y b)
  && num_eqb (PdfBox.width a) (PdfBox.width b)
  && num_eqb (PdfBox.height a) (PdfBox.height b).

Definition mapped_eqb (a b : Mapped) : bool :=
  pdfBox_eqb (pdfBox a) (pdfBox b)
  && num_eqb (Fractions.x_frac (fractions a)) (Fractions.x_frac (fractions b))
  && num_eqb (Fractions.y_frac (fractions a)) (Fractions.y_frac (fractions b))
  && num_eqb (Fractions.w_frac (fractions a)) (Fractions.w_frac (fractions b))
  && num_eqb (Fractions.h_frac (fractions a)) (Fractions.h_frac (fractions b)).

(** A box or a size whose fields are numbers. *)
Definition cssBox (l t w h : num) : CssBox.t :=
  CssBox.mk (VNum l) (VNum t) (VNum w) (VNum h).
Definition size (w h : num) : Size.t := Size.mk (VNum w) (VNum h).

End Coord.

(** ** The fit block

    The same text stands in the [/api/sign-pdf] and [/api/sign-pdf-multi]
    handlers of [server.js], in [signPdfHandler] of [signController.js] and
    in [burnInLocallyMultiple] of [PdfEditor.jsx]: the rectangle handed to
    [page.drawImage].  [imgW] and [imgH] are [image.width] and
    [image.height]; an absent field of [pdfBox] behaves as NaN in this
    arithmetic. *)

Module Fit.
Import JS Coord.

Definition fit (imgW imgH : num) (pdfBox : PdfBox.t) : PdfBox.t :=
  let x := PdfBox.x pdfBox in
  let y := PdfBox.y pdfBox in
  let boxW := PdfBox.width pdfBox in
  let boxH := PdfBox.height pdfBox in
  let imgRatio := div imgW imgH in
  let boxRatio := div boxW boxH in
  let '(drawW, drawH) :=
    if gtb imgRatio boxRatio then (boxW, div boxW imgRatio)
    else (mul boxH imgRatio, boxH) in
  let offsetX := add x (div (sub boxW drawW) (ofZ 2)) in
  let offsetY := add y (div (sub boxH drawH) (ofZ 2)) in
  {| PdfBox.x := offsetX; PdfBox.y := offsetY;
     PdfBox.width := drawW; PdfBox.height := drawH |}.

End Fit.

(** ** The server: [server/server.js] *)

Module Server.
Import JS Coord Fit.

Definition bytes : Type := list Byte.byte.

(** A call returns or throws. *)
Inductive outcome (A : Type) : Type :=
| Ret (a : A)
| Throw (message : string).
Arguments Ret {A} a.
Arguments Throw {A} message.

#[global] Instance outcome_ret : MRet outcome := fun _ a => Ret a.
#[global] Instance outcome_bind : MBind outcome := fun _ _ f m =>
  match m with
  | Ret a => f a
  | Throw e => Throw e
  end.

(** The collaborators the handlers call and the repository does not define:
    pdf-lib ([PDFDocument.load], [embedPng], [embedJpg], [getPage],
    [drawImage], [save]), [Buffer.from(_, 'base64')] and the SHA-256 digest
    of [utils/hash.js].  A pdf-lib document is a mutable object: the calls
    that change it return the changed document.  [getPage] returns a page,
    a falsy value ([None]) or throws. *)
Class PdfLib : Type := {
  doc : Type;
  page : Type;
  image : Type;
  load : bytes -> outcome doc;
  embedPng : doc -> bytes -> outcome (image * doc);
  embedJpg : doc -> bytes -> outcome (image * doc);
  image_width : image -> num;
  image_height : image -> num;
  getPage : doc -> value -> outcome (option page);
  drawImage : doc -> page -> image -> PdfBox.t -> outcome doc;
  save : doc -> outcome bytes;
  base64 : string -> bytes;
  sha256Hex : bytes -> string
}.

(** *** The two collections, by their schemas *)

(** [models/UploadedDocument.js]; [pdfId], [pdfPath] and [pdfHash] are
    required strings. *)
Record UploadedDocument : Type := {
  u_pdfId : string;
  u_pdfPath : string;
  u_pdfHash : string;
  u_originalFilename : string;
  u_size : Z
}.

(** [models/Document.js]: one audit record. *)
Record Document : Type := {
  d_pdfId : string;
  d_pageIndex : value;
  d_pdfPathOriginal : string;
  d_pdfPathSigned : string;
  d_beforeHash : string;
  d_afterHash : string;
  d_mime : string
}.

(** What a handler sees and changes: the files of [STORAGE_DIR] by name,
    the [UploadedDocument] collection, and the batches of audit records
    handed to [DocumentModel.insertMany], whose promise the handler does not
    await.  A [pdfId] is a file name without directory separators, as
    [/api/upload-pdf] makes them, so that [path.join(STORAGE_DIR, name)]
    names the file [name] and [path.basename] gives [name] back.  A handler
    runs from request to reply without another one in between. *)
Record World : Type := {
  storage : gmap string bytes;
  uploads : list UploadedDocument;
  audits : list (list Document)
}.

(** *** Responses *)

Inductive body : Type :=
| BError (error : string)
| BSigned (url beforeHash afterHash : string)
| BUpload (exists_ : bool) (url pdfId : string) (doc : UploadedDocument).

Record response : Type := { status : nat; json : body }.

Definition ok (b : body) : response := {| status := 200; json := b |}.


(** [!s] on an optional string: absent or empty. *)
Definition missing (s : option string) : bool :=
  match s with
  | None | Some EmptyString => true
  | Some _ => false
  end.

(** [err.message || fallback] *)
Definition message_or (m fallback : string) : string :=
  if String.eqb m EmptyString then fallback else m.

(** *** [/api/upload-pdf] *)

Module File.
Record t : Type := mk { filename : string; originalname : string; size : Z }.
End File.

(** [req.file] as multer leaves it (the file is already in [STORAGE_DIR])
    and the form field [req.body.pdfHash]. *)
Record UploadReq : Type := {
  file : option File.t;
  body_pdfHash : option string
}.

Definition lower (c : ascii) : ascii :=
  let n := nat_of_ascii c in
  if ((65 <=? n) && (n <=? 90))%nat then ascii_of_nat (n + 32) else c.

Fixpoint lowercase (s : string) : string :=
  match s with
  | EmptyString => EmptyString
  | String c r => String (lower c) (lowercase r)
  end.

(** [name.replace(/[.]pdf$/i, '')] *)
Fixpoint strip_pdf (name : string) : string :=
  match name with
  | EmptyString => EmptyString
  | String c r =>
      if String.eqb (lowercase name) ".pdf"
      then EmptyString
      else String c (strip_pdf r)
  end.

(** [UploadedDocument.findOne({ pdfHash })] *)
Definition findOne (pdfHash : string) (coll : list UploadedDocument)
  : option UploadedDocument :=
  List.find (fun d => String.eqb (u_pdfHash d) pdfHash) coll.

(** [UploadedDocument.create(...)]: the schema rejects a missing required
    field and a [pdfId] already in the collection. *)
Definition create (pdfId pdfPath : string) (pdfHash : option string)
    (originalFilename : string) (size : Z) (coll : list UploadedDocument)
  : outcome (UploadedDocument * list UploadedDocument) :=
  if missing (Some pdfId) || missing (Some pdfPath) || missing pdfHash then
    Throw "UploadedDocument validation failed"
  else if existsb (fun d => String.eqb (u_pdfId d) pdfId) coll then
    Throw "E11000 duplicate key error"
  else
    let d := {| u_pdfId := pdfId; u_pdfPath := pdfPath;
                u_pdfHash := default EmptyString pdfHash;
                u_originalFilename := originalFilename; u_size := size |} in
    Ret (d, coll ++ [d]).

Section Upload.
Context {lib : PdfLib}.

(** [computeFileSha256Hex(path.join(STORAGE_DIR, filename))] *)
Definition computeFileSha256Hex (w : World) (name : string) : outcome string :=
  match storage w !! name with
  | Some buf => Ret (sha256Hex buf)
  | None => Throw "ENOENT: no such file or directory"
  end.

Definition upload_pdf (req : UploadReq) (w : World) : response * World :=
  match file req with
  | None => ({| status := 400; json := BError "No file uploaded" |}, w)
  | Some f =>
      let filename := File.filename f in
      let pdfId := strip_pdf filename in
      let publicPath := "/storage/" +:+ filename in
      let pdfHash :=
        if missing (body_pdfHash req) then
          match computeFileSha256Hex w filename with
          | Ret h => Some h
          | Throw _ => body_pdfHash req
          end
        else body_pdfHash req in
      let existing :=
        if missing pdfHash then None
        else findOne (default EmptyString pdfHash) (uploads w) in
      match existing with
      | Some existing =>
          (ok (BUpload true (u_pdfPath existing) (u_pdfId existing) existing),
           {| storage := delete filename (storage w);
              uploads := uploads w; audits := audits w |})
      | None =>
          match create pdfId publicPath
                  (if missing pdfHash then None else pdfHash)
                  (File.originalname f) (File.size f) (uploads w) with
          | Ret (created, coll) =>
              (ok (BUpload false publicPath pdfId created),
               {| storage := storage w; uploads := coll; audits := audits w |})
          | Throw e =>
              ({| status := 500; json := BError (message_or e "Upload failed") |}, w)
          end
      end
  end.

(** The hash an upload is keyed by: the form field when it is not empty,
    otherwise the digest of the stored file. *)
Definition effective_hash (req : UploadReq) (w : World) (name : string)
  : option string :=
  if missing (body_pdfHash req) then
    match storage w !! name with
    | Some buf => if missing (Some (sha256Hex buf)) then None else Some (sha256Hex buf)
    | None => None
    end
  else body_pdfHash req.

End Upload.


(** *** [/api/sign-pdf-multi] *)

(** One element of [items].  [pdfBox] is [None] when the property is absent:
    destructuring it throws. *)
Module Item.
Record t : Type := mk { pageIndex : value; pdfBox : option PdfBox.t }.
End Item.

(** [req.body]; [items] is [None] when it is not an array. *)
Record SignMultiReq : Type := {
  pdfId : option string;
  items : option (list Item.t);
  signatureBase64 : option string
}.

(** The text before the first comma, and the text after it if there is one. *)
Fixpoint before_comma (s : string) : string :=
  match s with
  | EmptyString => EmptyString
  | String c r => if Ascii.eqb c "," then EmptyString else String c (before_comma r)
  end.
Fixpoint after_comma (s : string) : option string :=
  match s with
  | EmptyString => None
  | String c r => if Ascii.eqb c "," then Some r else after_comma r
  end.

(** [s.includes(',') ? s.split(',')[1] : s] *)
Definition imgData (s : string) : string :=
  match after_comma s with
  | Some r => before_comma r
  | None => s
  end.

Definition isPng (s : string) : bool := String.prefix "data:image/png" s.
Definition mime (s : string) : string :=
  if isPng s then "image/png" else "image/jpeg".

(** [const { x, y, width: boxW, height: boxH } = pdfBox;] *)
Definition destructure (b : option PdfBox.t) : outcome PdfBox.t :=
  match b with
  | Some b => Ret b
  | None => Throw "Cannot destructure property 'x' of 'pdfBox' as it is undefined."
  end.

Section SignMulti.
Context {lib : PdfLib}.

(** [for (const it of items) { ... }]: a falsy page is skipped. *)
Fixpoint draw_items (img : image) (its : list Item.t) (d : doc) : outcome doc :=
  match its with
  | [] => Ret d
  | it :: rest =>
      pg ← getPage d (Item.pageIndex it);
      match pg with
      | None => draw_items img rest d
      | Some pg =>
          b ← destructure (Item.pdfBox it);
          d' ← drawImage d pg img (fit (image_width img) (image_height img) b);
          draw_items img rest d'
      end
  end.

(** The body of the [try] up to [pdfDoc.save()]: the bytes read and the
    bytes to write. *)
Definition signed_bytes (orig : bytes) (sig : string) (its : list Item.t)
  : outcome bytes :=
  pdfDoc ← load orig;
  let imgBytes := base64 (imgData sig) in
  '(img, pdfDoc) ← (if isPng sig then embedPng pdfDoc imgBytes
                    else embedJpg pdfDoc imgBytes);
  pdfDoc ← draw_items img its pdfDoc;
  save pdfDoc.

(** [docsToCreate]: one record for each element of [items]. *)
Definition docsToCreate (pdfId baseOriginalPublic baseSignedPublic
    beforeHash afterHash sig : string) (its : list Item.t) : list Document :=
  List.map (fun it =>
    {| d_pdfId := pdfId;
       d_pageIndex := Item.pageIndex it;
       d_pdfPathOriginal := baseOriginalPublic;
       d_pdfPathSigned := baseSignedPublic;
       d_beforeHash := beforeHash;
       d_afterHash := afterHash;
       d_mime := mime sig |}) its.

(** [now] is what [Date.now()] returns. *)
Definition sign_pdf_multi (req : SignMultiReq) (now : Z) (w : World)
  : response * World :=
  match pdfId req, items req, signatureBase64 req with
  | Some ((String _ _) as pdfId), Some ((_ :: _) as its), Some ((String _ _) as sig) =>
      let origName := pdfId +:+ ".pdf" in
      match storage w !! origName with
      | None =>
          ({| status := 400;
              json := BError ("original PDF not found: " +:+ origName) |}, w)
      | Some orig =>
          let beforeHash := sha256Hex orig in
          match signed_bytes orig sig its with
          | Throw e =>
              ({| status := 500; json := BError (message_or e "Sign multi failed") |}, w)
          | Ret outBytes =>
              let afterHash := sha256Hex outBytes in
              let outName := pdfId +:+ "-signed-multi-" +:+ pretty now +:+ ".pdf" in
              let baseOriginalPublic := "/storage/" +:+ origName in
              let baseSignedPublic := "/storage/" +:+ outName in
              (ok (BSigned baseSignedPublic beforeHash afterHash),
               {| storage := <[outName := outBytes]> (storage w);
                  uploads := uploads w;
                  audits := audits w ++
                    [docsToCreate pdfId baseOriginalPublic baseSignedPublic
                       beforeHash afterHash sig its] |})
          end
      end
  | _, _, _ => ({| status := 400; json := BError "missing" |}, w)
  end.

End SignMulti.

(** *** A small pdf-lib to run the handlers on

    A document is its pages, a page the rectangles drawn on it, an image its
    size; [getPage] returns a falsy value where there is no page. *)
Module Toy.

Definition index_of (v : value) : option nat :=
  match Number v with
  | Fin q => if Qc_ltb q 0 then None else Some (Z.to_nat (Qfloor q))
  | _ => None
  end.

(** The text before and after the first ["x"]. *)
Fixpoint cut_x (s : string) : option (string * string) :=
  match s with
  | EmptyString => None
  | String c r =>
      if Ascii.eqb c "x" then Some (EmptyString, r)
      else '(a, b) ← cut_x r; Some (String c a, b)
  end.

(** An image is written [<width>x<height>]. *)
Definition embed (d : list (list PdfBox.t)) (b : bytes)
  : outcome (num * num * list (list PdfBox.t)) :=
  match cut_x (string_of_list_ascii (List.map ascii_of_byte b)) with
  | Some (w, h) => Ret (StringToNumber w, StringToNumber h, d)
  | None => Throw "not an image"
  end.

Definition draw (d : list (list PdfBox.t)) (p : nat) (r : PdfBox.t)
  : list (list PdfBox.t) :=
  alter (fun rs => rs ++ [r]) p d.

#[export] Instance lib : PdfLib := {|
  doc := list (list PdfBox.t);
  page := nat;
  image := num * num;
  load := fun b => Ret (List.map (fun _ => []) b);
  embedPng := embed;
  embedJpg := embed;
  image_width := fst;
  image_height := snd;
  getPage := fun d i =>
    Ret (p ← index_of i; if (p <? length d)%nat then Some p else None);
  drawImage := fun d p _ r => Ret (draw d p r);
  save := fun d =>
    Ret (List.map (fun rs => default Byte.x00 (Byte.of_N (N.of_nat (length rs)))) d);
  base64 := fun s => List.map byte_of_ascii (list_ascii_of_string s);
  sha256Hex := fun b => string_of_list_ascii (List.map ascii_of_byte b)
|}.

(** A stored one-page PDF [contract.pdf]. *)
Definition world : World :=
  {| storage := {[ "contract.pdf" := [Byte.x25] ]};
     uploads := [];
     audits := [] |}.

Definition box50 : PdfBox.t := PdfBox.mk (ofZ 10) (ofZ 10) (ofZ 50) (ofZ 50).


(** A box of height 0 on the first page, signed with a 200 x 100 image. *)
Definition flat_box_req : SignMultiReq :=
  {| pdfId := Some "contract";
     items := Some [Item.mk (VNum (ofZ 0))
                      (Some (PdfBox.mk (ofZ 10) (ofZ 10) (ofZ 50) (ofZ 0)))];
     signatureBase64 := Some "data:image/png;base64,200x100" |}.

(** Boxes on pages 0, 7 and 0 of the one-page PDF. *)
Definition three_items : list Item.t :=
  [Item.mk (VNum (ofZ 0)) (Some box50);
   Item.mk (VNum (ofZ 7)) (Some box50);
   Item.mk (VNum (ofZ 0)) (Some box50)].

Definition missing_page_req : SignMultiReq :=
  {| pdfId := Some "contract";
     items := Some three_items;
     signatureBase64 := Some "data:image/png;base64,200x100" |}.

(** [scan-1.pdf] is stored and recorded; the same bytes arrive again as
    [scan-2.pdf]. *)
Definition scan : bytes := [Byte.x25; Byte.x50; Byte.x44; Byte.x46].

Definition scan1 : UploadedDocument :=
  {| u_pdfId := "scan-1"; u_pdfPath := "/storage/scan-1.pdf";
     u_pdfHash := sha256Hex scan; u_originalFilename := "scan.pdf"; u_size := 4 |}.

Definition uploaded_world : World :=
  {| storage := {[ "scan-1.pdf" := scan; "scan-2.pdf" := scan ]};
     uploads := [scan1];
     audits := [] |}.

Definition scan2 : File.t := File.mk "scan-2.pdf" "scan.pdf" 4.


Definition reupload_other_hash : UploadReq :=
  {| file := Some scan2; body_pdfHash := Some "0000" |}.

End Toy.
End Server.

(** ** The other routes of [server/server.js] and [signController.js] *)

Module Api.
Import JS Coord Fit Server.

(** *** [/api/check-pdf] *)

(** [{ error }], [{ exists: false }] or [{ exists: true, url, doc }]. *)
Inductive check_body : Type :=
| CError (error : string)
| CAbsent
| CFound (url : string) (doc : UploadedDocument).

(** [hash] is [req.body.hash]. *)
Definition check_pdf (hash : option string) (w : World) : nat * check_body :=
  if missing hash then (400%nat, CError "hash missing")
  else
    match findOne (default EmptyString hash) (uploads w) with
    | None => (200%nat, CAbsent)
    | Some found => (200%nat, CFound (u_pdfPath found) found)
    end.

(** *** The file name multer gives an upload ([storage.filename]) *)

(** [\s], on 8-bit characters. *)
Definition regex_space (c : ascii) : bool :=
  let n := nat_of_ascii c in
  ((9 <=? n) && (n <=? 13) || (n =? 32) || (n =? 160))%nat.

(** [s.replace(/\s+/g, '-')]: each run of white space becomes one dash. *)
Fixpoint dash_spaces (s : string) : string :=
  match s with
  | EmptyString => EmptyString
  | String c r =>
      if regex_space c then
        match r with
        | String c' _ =>
            if regex_space c' then dash_spaces r else String "-" (dash_spaces r)
        | EmptyString => String "-" EmptyString
        end
      else String c (dash_spaces r)
  end.

(** [[a-zA-Z0-9\-_.]] *)
Definition name_char (c : ascii) : bool :=
  let n := nat_of_ascii c in
  ((97 <=? n) && (n <=? 122) || (65 <=? n) && (n <=? 90)
   || (48 <=? n) && (n <=? 57) || (n =? 45) || (n =? 95) || (n =? 46))%nat.

(** [s.replace(/[^a-zA-Z0-9\-_.]/g, '')] *)
Fixpoint keep_name_chars (s : string) : string :=
  match s with
  | EmptyString => EmptyString
  | String c r =>
      if name_char c then String c (keep_name_chars r) else keep_name_chars r
  end.

(** [filename: (req, file, cb) => ...]; [now] is what [Date.now()] returns. *)
Definition multer_filename (originalname : option string) (now : Z) : string :=
  let base :=
    keep_name_chars
      (dash_spaces (if missing originalname then "upload"
                    else default EmptyString originalname)) in
  strip_pdf base +:+ "-" +:+ pretty now +:+ ".pdf".

(** *** [/api/sign-pdf] *)

Module Sign.
Record t : Type := mk {
  pdfId : option string;
  pageIndex : value;
  pdfBox : option PdfBox.t;
  signatureBase64 : option string
}.
End Sign.

Section Single.
Context {lib : PdfLib}.

(** The body of the [try] of [/api/sign-pdf] up to [pdfDoc.save()].  The
    page is not tested: on a falsy page [page.drawImage] is a [TypeError]. *)
Definition sign_one (orig : bytes) (sig : string) (pageIndex : value)
    (pdfBox : PdfBox.t) : outcome bytes :=
  pdfDoc ← load orig;
  let imgBytes := base64 (imgData sig) in
  '(img, pdfDoc) ← (if isPng sig then embedPng pdfDoc imgBytes
                    else embedJpg pdfDoc imgBytes);
  pg ← getPage pdfDoc pageIndex;
  let r := fit (image_width img) (image_height img) pdfBox in
  match pg with
  | None => Throw "Cannot read properties of undefined (reading 'drawImage')"
  | Some pg => pdfDoc ← drawImage pdfDoc pg img r; save pdfDoc
  end.

Definition docRecord (pdfId : string) (pageIndex : value)
    (pdfPathOriginal pdfPathSigned beforeHash afterHash sig : string) : Document :=
  {| d_pdfId := pdfId;
     d_pageIndex := pageIndex;
     d_pdfPathOriginal := pdfPathOriginal;
     d_pdfPathSigned := pdfPathSigned;
     d_beforeHash := beforeHash;
     d_afterHash := afterHash;
     d_mime := mime sig |}.

Definition sign_pdf (req : Sign.t) (now : Z) (w : World) : response * World :=
  match Sign.pdfId req, Sign.pageIndex req, Sign.pdfBox req, Sign.signatureBase64 req with
  | None, _, _, _ | Some EmptyString, _, _, _
  | _, VUndefined, _, _ | _, _, None, _
  | _, _, _, None | _, _, _, Some EmptyString =>
      ({| status := 400; json := BError "missing" |}, w)
  | Some pdfId, pageIndex, Some pdfBox, Some sig =>
      let origName := pdfId +:+ ".pdf" in
      match storage w !! origName with
      | None =>
          ({| status := 400;
              json := BError ("original PDF not found: " +:+ origName) |}, w)
      | Some orig =>
          let beforeHash := sha256Hex orig in
          match sign_one orig sig pageIndex pdfBox with
          | Throw e =>
              ({| status := 500; json := BError (message_or e "Sign failed") |}, w)
          | Ret outBytes =>
              let afterHash := sha256Hex outBytes in
              let outName := pdfId +:+ "-signed-" +:+ pretty now +:+ ".pdf" in
              (ok (BSigned ("/storage/" +:+ outName) beforeHash afterHash),
               {| storage := <[outName := outBytes]> (storage w);
                  uploads := uploads w;
                  audits := audits w ++
                    [[docRecord pdfId pageIndex ("/storage/" +:+ origName)
                        ("/storage/" +:+ outName) beforeHash afterHash sig]] |})
          end
      end
  end.

(** *** [signPdfHandler] of [controllers/signController.js]

    [storageDir] is the path of the storage directory with its trailing
    separator, so that [path.join(__dirname, '..', 'storage', name)] is
    [storageDir +:+ name]; [blocking] is [BLOCKING_DB_SAVE]; [dbError] is
    what [DocumentModel.create] rejects with, when it does. *)

(** The [try] up to [getPage]: the document with the image, and the page. *)
Definition open_page (orig : bytes) (sig : string) (pageIndex : value)
  : outcome (doc * image * option page) :=
  pdfDoc ← load orig;
  let imgBytes := base64 (imgData sig) in
  '(img, pdfDoc) ← (if isPng sig then embedPng pdfDoc imgBytes
                    else embedJpg pdfDoc imgBytes);
  pg ← getPage pdfDoc pageIndex;
  Ret (pdfDoc, img, pg).

Definition signPdfHandler (storageDir : string) (blocking : bool)
    (dbError : option string) (req : Sign.t) (now : Z) (w : World)
  : response * World :=
  match Sign.pdfId req, Sign.pageIndex req, Sign.pdfBox req, Sign.signatureBase64 req with
  | None, _, _, _ | Some EmptyString, _, _, _
  | _, VUndefined, _, _ | _, _, None, _
  | _, _, _, None | _, _, _, Some EmptyString =>
      ({| status := 400;
          json := BError "Missing one of: pdfId, pageIndex, pdfBox, signatureBase64" |}, w)
  | Some pdfId, pageIndex, Some pdfBox, Some sig =>
      let pdfPath := storageDir +:+ pdfId +:+ ".pdf" in
      match storage w !! (pdfId +:+ ".pdf") with
      | None =>
          ({| status := 500; json := BError "ENOENT: no such file or directory" |}, w)
      | Some orig =>
          let beforeHash := sha256Hex orig in
          match open_page orig sig pageIndex with
          | Throw e => ({| status := 500; json := BError e |}, w)
          | Ret (_, _, None) =>
              ({| status := 400; json := BError "Invalid pageIndex" |}, w)
          | Ret (pdfDoc, img, Some pg) =>
              let r := fit (image_width img) (image_height img) pdfBox in
              match (pdfDoc ← drawImage pdfDoc pg img r; save pdfDoc) with
              | Throw e => ({| status := 500; json := BError e |}, w)
              | Ret outBytes =>
                  let afterHash := sha256Hex outBytes in
                  let outName := pdfId +:+ "-signed-" +:+ pretty now +:+ ".pdf" in
                  let outPath := storageDir +:+ outName in
                  let w' :=
                    {| storage := <[outName := outBytes]> (storage w);
                       uploads := uploads w;
                       audits := audits w ++
                         [[docRecord pdfId pageIndex pdfPath outPath
                             beforeHash afterHash sig]] |} in
                  match blocking, dbError with
                  | true, Some _ =>
                      ({| status := 500; json := BError "DB save failed" |}, w')
                  | _, _ =>
                      (ok (BSigned ("/storage/" +:+ outName) beforeHash afterHash), w')
                  end
              end
          end
      end
  end.

End Single.

(** The request [/api/sign-pdf-multi] gets for one box. *)
Definition as_multi (id sig : string) (p : value) (b : PdfBox.t) : SignMultiReq :=
  {| pdfId := Some id; items := Some [Item.mk p (Some b)];
     signatureBase64 := Some sig |}.

(** *** [server/fix-paths.js] *)

Definition is_separator (c : ascii) : bool :=
  Ascii.eqb c "/" || Ascii.eqb c "\".

(** Every character of [s] passes the test [P]. *)
Definition all_chars (P : ascii -> bool) (s : string) : bool :=
  forallb P (list_ascii_of_string s).

(** No [/] and no backslash in [s]. *)
Definition separator_free (s : string) : bool :=
  all_chars (fun c => negb (is_separator c)) s.

(** [p.split(/[\\/]/).pop()]: the text after the last separator. *)
Fixpoint last_segment (p : string) : string :=
  match p with
  | EmptyString => EmptyString
  | String c r =>
      if is_separator c || existsb is_separator (list_ascii_of_string r)
      then last_segment r
      else p
  end.

(** [if (name) path = '/storage/' + name] *)
Definition fix_path (p : string) : string :=
  let name := last_segment p in
  if missing (Some name) then p else "/storage/" +:+ name.

Definition is_letter (c : ascii) : bool :=
  let n := nat_of_ascii c in
  ((97 <=? n) && (n <=? 122) || (65 <=? n) && (n <=? 90))%nat.

(** [{ $regex: '^[A-Za-z]:\\\\' }]: a drive letter, a colon, a backslash. *)
Definition windows_path (p : string) : bool :=
  match p with
  | String l (String ":" (String "\" _)) => is_letter l
  | _ => false
  end.

(** The records the script finds, and what it saves for each. *)
Definition to_fix (d : Document) : bool :=
  windows_path (d_pdfPathOriginal d) || windows_path (d_pdfPathSigned d).

Definition fix_document (d : Document) : Document :=
  {| d_pdfId := d_pdfId d;
     d_pageIndex := d_pageIndex d;
     d_pdfPathOriginal := fix_path (d_pdfPathOriginal d);
     d_pdfPathSigned := fix_path (d_pdfPathSigned d);
     d_beforeHash := d_beforeHash d;
     d_afterHash := d_afterHash d;
     d_mime := d_mime d |}.

(** The collection after [run()]. *)
Definition fix_paths (coll : list Document) : list Document :=
  List.map (fun d => if to_fix d then fix_document d else d) coll.

End Api.

(** ** The editor state: [client/src/components/PdfEditor.jsx]

    The state of the component that the box and selection helpers read and
    write, and the helpers as functions on it.  A helper runs on the state
    of the render it was created in.  Decimal constants such as [0.3] are
    the exact rationals. *)

Module Editor.
Import JS Coord Fit Server Api.

(** [Math.floor(a)] *)
Definition Math_floor (a : num) : num :=
  match a with
  | Fin q => ofZ (Qfloor q)
  | _ => a
  end.

(** [a || b] on two numbers. *)
Definition num_or (a b : num) : num := Number (js_or (VNum a) (VNum b)).

(** [a === b] on two numbers: NaN equals nothing. *)
Definition strict_eq (a b : num) : bool :=
  match a, b with
  | NaN, _ | _, NaN => false
  | _, _ => num_eqb a b
  end.

(** [recompute]: the width given to the page, from
    [containerRef.current?.clientWidth] and [window.innerWidth]. *)
Definition recompute (clientWidth : value) (innerWidth : num) : num :=
  Math_max (ofZ 320)
    (Math_min (ofZ 1000)
       (Math_floor (sub (Number (js_or clientWidth (VNum innerWidth))) (ofZ 40)))).

(** One element of [boxes]. *)
Module Box.
Record t : Type := mk {
  id : string;
  left : num;
  top : num;
  width : num;
  height : num;
  pageIndex : num;
  x_frac : num;
  y_frac : num;
  w_frac : num;
  h_frac : num
}.
End Box.

(** The argument of [updateBox]: the fields the caller gives. *)
Module Patch.
Record t : Type := mk {
  left : option num;
  top : option num;
  width : option num;
  height : option num
}.
End Patch.

(** The objects [renderedSizes], [canvasOffsets] and [pageSizePointsMap] are
    read by page number; a number names the property its decimal text
    names, so that two numbers name the same property when they are equal
    (NaN included). *)
Definition by_page (A : Type) : Type := num -> option A.

Record State : Type := {
  boxes : list Box.t;
  selectedIds : gset string;
  renderedSizes : by_page (num * num);
  canvasOffsets : by_page (num * num);
  pageSizePointsMap : by_page (num * num);
  viewerWidth : num;
  activePage : num;
  signature : option string;
  pdfIdState : option string;
  localPdf : option bytes;
  localFileName : option string;
  pdfUrlState : option string
}.

Definition with_boxes (bs : list Box.t) (s : State) : State :=
  {| boxes := bs; selectedIds := selectedIds s;
     renderedSizes := renderedSizes s; canvasOffsets := canvasOffsets s;
     pageSizePointsMap := pageSizePointsMap s; viewerWidth := viewerWidth s;
     activePage := activePage s; signature := signature s;
     pdfIdState := pdfIdState s; localPdf := localPdf s;
     localFileName := localFileName s;
     pdfUrlState := pdfUrlState s |}.

Definition with_selection (sel : gset string) (s : State) : State :=
  {| boxes := boxes s; selectedIds := sel;
     renderedSizes := renderedSizes s; canvasOffsets := canvasOffsets s;
     pageSizePointsMap := pageSizePointsMap s; viewerWidth := viewerWidth s;
     activePage := activePage s; signature := signature s;
     pdfIdState := pdfIdState s; localPdf := localPdf s;
     localFileName := localFileName s;
     pdfUrlState := pdfUrlState s |}.

(** [renderedSizes[page] || { width: viewerWidth, height: Math.round(viewerWidth * 1.3) }] *)
Definition rendered_or_default (s : State) (page : num) : num * num :=
  default (viewerWidth s, Math_round (mul (viewerWidth s) (Fin (qc 13 10))))
          (renderedSizes s page).

(** [addBox]; [now] is what [Date.now()] returns. *)
Definition new_box (now : Z) (s : State) : Box.t :=
  let pageRendered := rendered_or_default s (activePage s) in
  let defaultW := Math_round (mul (fst pageRendered) (Fin (qc 3 10))) in
  let defaultH := Math_round (mul defaultW (Fin (qc 35 100))) in
  let left := Math_max (ofZ 8) (Math_round (mul (fst pageRendered) (Fin (qc 1 10)))) in
  let top := Math_max (ofZ 8) (Math_round (mul (snd pageRendered) (Fin (qc 6 10)))) in
  {| Box.id := pretty now;
     Box.left := left;
     Box.top := top;
     Box.width := defaultW;
     Box.height := defaultH;
     Box.pageIndex := activePage s;
     Box.x_frac := div left (num_or (fst pageRendered) (ofZ 1));
     Box.y_frac := div top (num_or (snd pageRendered) (ofZ 1));
     Box.w_frac := div defaultW (num_or (fst pageRendered) (ofZ 1));
     Box.h_frac := div defaultH (num_or (snd pageRendered) (ofZ 1)) |}.

Definition addBox (now : Z) (s : State) : State :=
  with_boxes (boxes s ++ [new_box now s]) s.

(** [Math.max(0, Math.min(1, v))] *)
Definition clamp_unit (v : num) : num := Math_max (ofZ 0) (Math_min (ofZ 1) v).

(** [{ ...b, ...patch }] and the fractions computed again. *)
Definition patched (s : State) (patch : Patch.t) (b : Box.t) : Box.t :=
  let left := default (Box.left b) (Patch.left patch) in
  let top := default (Box.top b) (Patch.top patch) in
  let width := default (Box.width b) (Patch.width patch) in
  let height := default (Box.height b) (Patch.height patch) in
  match Patch.left patch, Patch.top patch, Patch.width patch, Patch.height patch with
  | None, None, None, None => b
  | _, _, _, _ =>
      let size := rendered_or_default s (Box.pageIndex b) in
      {| Box.id := Box.id b;
         Box.left := left;
         Box.top := top;
         Box.width := width;
         Box.height := height;
         Box.pageIndex := Box.pageIndex b;
         Box.x_frac := clamp_unit (div (num_or left (ofZ 0)) (num_or (fst size) (ofZ 1)));
         Box.y_frac := clamp_unit (div (num_or top (ofZ 0)) (num_or (snd size) (ofZ 1)));
         Box.w_frac := clamp_unit (div (num_or width (ofZ 0)) (num_or (fst size) (ofZ 1)));
         Box.h_frac := clamp_unit (div (num_or height (ofZ 0)) (num_or (snd size) (ofZ 1))) |}
  end.

Definition updateBox (id : string) (patch : Patch.t) (s : State) : State :=
  with_boxes
    (List.map (fun b => if String.eqb (Box.id b) id then patched s patch b else b)
       (boxes s)) s.

Definition removeBox (id : string) (s : State) : State :=
  with_selection (selectedIds s ∖ {[ id ]})
    (with_boxes (List.filter (fun b => negb (String.eqb (Box.id b) id)) (boxes s)) s).

Definition toggleSelect (id : string) (s : State) : State :=
  with_selection
    (if decide (id ∈ selectedIds s) then selectedIds s ∖ {[ id ]}
     else selectedIds s ∪ {[ id ]}) s.

Definition selectAllOnPage (page : num) (s : State) : State :=
  with_selection
    (selectedIds s
     ∪ list_to_set
         (List.map Box.id
            (List.filter (fun b => strict_eq (Box.pageIndex b) page) (boxes s)))) s.

Definition selectAll (s : State) : State :=
  with_selection (list_to_set (List.map Box.id (boxes s))) s.

Definition clearSelection (s : State) : State := with_selection ∅ s.

(** [getPageOffsetAndSize] *)
Definition getPageOffsetAndSize (s : State) (pageIndexOne : num)
  : (num * num) * (num * num) :=
  (default (ofZ 0, ofZ 0) (canvasOffsets s pageIndexOne),
   rendered_or_default s pageIndexOne).

(** What [exportCoords] returns. *)
Record Exported : Type := {
  e_pageIndex : num;
  e_pdfBox : PdfBox.t;
  e_fractions : Fractions.t;
  e_pageSizePoints : num * num
}.

Definition exportCoords (s : State) (box : Box.t) : Exported :=
  let pageIndexOne := num_or (Box.pageIndex box) (ofZ 1) in
  let '(offset, size) := getPageOffsetAndSize s pageIndexOne in
  let localLeft := sub (Box.left box) (num_or (fst offset) (ofZ 0)) in
  let localTop := sub (Box.top box) (num_or (snd offset) (ofZ 0)) in
  let cssBox := Coord.cssBox localLeft localTop (Box.width box) (Box.height box) in
  let pagePts := default (ofZ 595, ofZ 842) (pageSizePointsMap s pageIndexOne) in
  let m := cssBoxToPdfPoints cssBox (Coord.size (fst size) (snd size))
             (Coord.size (fst pagePts) (snd pagePts)) in
  let pageIndexZero := Math_max (ofZ 0) (sub pageIndexOne (ofZ 1)) in
  {| e_pageIndex := pageIndexZero;
     e_pdfBox := pdfBox m;
     e_fractions := fractions m;
     e_pageSizePoints := pagePts |}.

(** An exported item as [/api/sign-pdf-multi] reads it from the JSON body.
    JSON has no NaN and no infinity: [JSON.stringify] writes [null] for
    them. *)
Definition json_number (n : num) : value :=
  match n with
  | Fin _ => VNum n
  | _ => VNull
  end.

(** A field of [pdfBox] that arrives as [null] counts as 0 in the arithmetic
    of the server. *)
Definition json_field (n : num) : num :=
  match n with
  | Fin _ => n
  | _ => ofZ 0
  end.

Definition json_box (b : PdfBox.t) : PdfBox.t :=
  {| PdfBox.x := json_field (PdfBox.x b);
     PdfBox.y := json_field (PdfBox.y b);
     PdfBox.width := json_field (PdfBox.width b);
     PdfBox.height := json_field (PdfBox.height b) |}.

(** What [signSelected] and [signAllPages] do with the exported items. *)
Inductive outcome_of_sign : Type :=
| Alert (message : string)
| Local (items : list Exported) (signatureDataUrl outName : string)
| Post (pdfId : string) (items : list Exported) (signatureBase64 : string).

(** [name.replace(/\.[^.]+$/, "")]: the name without its extension. *)
Definition is_dot (c : ascii) : bool := Ascii.eqb c ".".

Fixpoint strip_ext (name : string) : string :=
  match name with
  | EmptyString => EmptyString
  | String c r =>
      if is_dot c && negb (String.eqb r EmptyString)
         && negb (existsb is_dot (list_ascii_of_string r))
      then EmptyString
      else String c (strip_ext r)
  end.

(** The part [signSelected] and [signAllPages] share, after the boxes to
    sign have been chosen. *)
Definition sign_boxes (tag : string) (now : Z) (s : State) (sig : string)
    (chosen : list Box.t) : outcome_of_sign :=
  let exportedItems := List.map (exportCoords s) chosen in
  match localPdf s with
  | Some _ =>
      let name := if missing (localFileName s) then "local"
                  else default EmptyString (localFileName s) in
      Local exportedItems sig (strip_ext name +:+ tag +:+ pretty now +:+ ".pdf")
  | None =>
      if missing (pdfIdState s)
      then Alert "No server PDF selected. Upload first or load locally."
      else Post (default EmptyString (pdfIdState s)) exportedItems sig
  end.

Definition signSelected (now : Z) (s : State) : outcome_of_sign :=
  if missing (signature s) then Alert "No signature captured or uploaded."
  else if decide (selectedIds s = ∅) then Alert "No boxes selected."
  else
    let selectedBoxes :=
      List.filter (fun b => bool_decide (Box.id b ∈ selectedIds s)) (boxes s) in
    match selectedBoxes with
    | [] => Alert "Selected boxes not found."
    | _ => sign_boxes "-signed-selected-" now s
             (default EmptyString (signature s)) selectedBoxes
    end.

Definition signAllPages (now : Z) (s : State) : outcome_of_sign :=
  if missing (signature s) then Alert "No signature captured or uploaded."
  else
    match boxes s with
    | [] => Alert "No signature boxes in document."
    | _ => sign_boxes "-signed-all-" now s (default EmptyString (signature s)) (boxes s)
    end.

(** The body of the POST as the server destructures it. *)
Definition to_item (e : Exported) : Item.t :=
  Item.mk (json_number (e_pageIndex e)) (Some (json_box (e_pdfBox e))).

Definition payload (pdfId : string) (items : list Exported) (sig : string)
  : SignMultiReq :=
  {| Server.pdfId := Some pdfId;
     Server.items := Some (List.map to_item items);
     Server.signatureBase64 := Some sig |}.

(** What the user does with the boxes and the selection.  The check box and
    the Delete button of a box carry the [id] of that box. *)
Inductive action : Type :=
| AddBox (now : Z)
| UpdateBox (id : string) (patch : Patch.t)
| RemoveBox (id : string)
| ToggleSelect (id : string)
| SelectAllOnPage (page : num)
| SelectAll
| ClearSelection.

Definition run (a : action) (s : State) : State :=
  match a with
  | AddBox now => addBox now s
  | UpdateBox id patch => updateBox id patch s
  | RemoveBox id => removeBox id s
  | ToggleSelect id => toggleSelect id s
  | SelectAllOnPage page => selectAllOnPage page s
  | SelectAll => selectAll s
  | ClearSelection => clearSelection s
  end.

(** The action is one the page offers in state [s]. *)
Definition offered (a : action) (s : State) : Prop :=
  match a with
  | UpdateBox id _ | RemoveBox id | ToggleSelect id => id ∈ List.map Box.id (boxes s)
  | _ => True
  end.

(** The states reached from [s] by actions the page offers. *)
Inductive reachable (s : State) : State -> Prop :=
| reach_refl : reachable s s
| reach_step (a : action) (s' : State) :
    reachable s s' -> offered a s' -> reachable s (run a s').

(** The state of a fresh component on a page [viewerWidth] wide. *)
Definition initial (viewerWidth : num) : State :=
  {| boxes := []; selectedIds := ∅;
     renderedSizes := fun _ => None; canvasOffsets := fun _ => None;
     pageSizePointsMap := fun _ => None; viewerWidth := viewerWidth;
     activePage := ofZ 1; signature := None; pdfIdState := None;
     localPdf := None; localFileName := None; pdfUrlState := None |}.

(** *** [sha256HexOfFile] *)

(** [n.toString(16)] for [n < 16] *)
Definition hex_digit (n : N) : ascii :=
  match n with
  | 0 => "0" | 1 => "1" | 2 => "2" | 3 => "3" | 4 => "4" | 5 => "5" | 6 => "6"
  | 7 => "7" | 8 => "8" | 9 => "9" | 10 => "a" | 11 => "b" | 12 => "c"
  | 13 => "d" | 14 => "e" | _ => "f"
  end%char%N.

(** [b.toString(16).padStart(2, "0")] *)
Definition hex_byte (b : Byte.byte) : string :=
  let n := Byte.to_N b in
  String (hex_digit (n / 16)) (String (hex_digit (n mod 16)) EmptyString).

(** The loop of the branch without [crypto.subtle]. *)
Fixpoint hex_of_bytes (buf : bytes) : string :=
  match buf with
  | [] => EmptyString
  | b :: rest => hex_byte b +:+ hex_of_bytes rest
  end.

(** [subtle] tells whether [crypto.subtle] is there. *)
Definition sha256HexOfFile {lib : PdfLib} (subtle : bool) (content : bytes) : string :=
  if subtle then sha256Hex content else hex_of_bytes content.

(** The value of a hexadecimal digit, and the byte two digits write. *)
Definition unhex_digit (c : ascii) : option N :=
  let n := N_of_ascii c in
  if ((48 <=? n) && (n <=? 57))%N then Some (n - 48)%N
  else if ((97 <=? n) && (n <=? 102))%N then Some (n - 87)%N
  else None.

Fixpoint unhex (s : string) : option bytes :=
  match s with
  | EmptyString => Some []
  | String c1 (String c2 r) =>
      hi ← unhex_digit c1; lo ← unhex_digit c2;
      b ← Byte.of_N (hi * 16 + lo); rest ← unhex r; Some (b :: rest)
  | _ => None
  end.

(** *** [uploadPdfFile]: hash, [/api/check-pdf], [/api/upload-pdf] *)

(** What the eight [set...] calls after a PDF of the server has been taken
    over leave. *)
Definition loaded (url : string) (pdfId : option string) (s : State) : State :=
  {| boxes := []; selectedIds := ∅;
     renderedSizes := renderedSizes s; canvasOffsets := canvasOffsets s;
     pageSizePointsMap := pageSizePointsMap s; viewerWidth := viewerWidth s;
     activePage := activePage s; signature := None;
     pdfIdState := pdfId; localPdf := None; localFileName := None;
     pdfUrlState := Some url |}.

Section UploadFlow.
Context {lib : PdfLib}.

(** [API_BASE] *)
Variable apiBase : string.

(** [url && url.startsWith("http") ? url : `${API_BASE}${url || ""}`] *)
Definition full_url (url : string) : string :=
  if negb (missing (Some url)) && String.prefix "http" url then url
  else apiBase +:+ url.

(** The POST of the form to [/api/upload-pdf]: multer writes the file under
    the name [storage.filename] gives it, then the handler runs. *)
Definition post_upload (originalname : string) (content : bytes) (pdfHash : string)
    (now : Z) (w : World) : response * World :=
  let name := multer_filename (Some originalname) now in
  upload_pdf
    {| file := Some (File.mk name originalname (Z.of_nat (length content)));
       body_pdfHash := Some pdfHash |}
    {| storage := <[name := content]> (storage w);
       uploads := uploads w; audits := audits w |}.

(** [uploadPdfFile] on a PDF file with the given name and bytes, hashed with
    [crypto.subtle]; [confirm] is the answer to the question whether to load
    the existing file.  A reply with an error status makes axios throw: the
    state stays as it is. *)
Definition uploadPdfFile (originalname : string) (content : bytes) (confirm : bool)
    (now : Z) (s : State) (w : World) : State * World :=
  let pdfHash := sha256Hex content in
  let upload :=
    let '(r, w') := post_upload originalname content pdfHash now w in
    match json r with
    | BUpload _ url pdfId _ => (loaded (full_url url) (Some pdfId) s, w')
    | _ => (s, w')
    end in
  match check_pdf (Some pdfHash) w with
  | (_, CFound url doc) =>
      if confirm then
        (loaded (full_url url)
           (if missing (Some (u_pdfId doc)) then None else Some (u_pdfId doc)) s, w)
      else upload
  | _ => upload
  end.

End UploadFlow.

(** *** [burnInLocallyMultiple]: signing in the browser *)

(** [s.includes(t)] *)
Fixpoint includes (t s : string) : bool :=
  String.prefix t s
  || match s with
     | EmptyString => false
     | String _ r => includes t r
     end.

(** The first bytes read as text start with [%PDF]. *)
Definition pdf_header (src : bytes) : bool :=
  match src with
  | b1 :: b2 :: b3 :: b4 :: _ =>
      Byte.eqb b1 Byte.x25 && Byte.eqb b2 Byte.x50
      && Byte.eqb b3 Byte.x44 && Byte.eqb b4 Byte.x46
  | _ => false
  end.

(** An exported item whose numbers are all finite: JSON carries it as it is. *)
Definition json_exact (e : Exported) : bool :=
  isFinite (e_pageIndex e)
  && isFinite (PdfBox.x (e_pdfBox e)) && isFinite (PdfBox.y (e_pdfBox e))
  && isFinite (PdfBox.width (e_pdfBox e)) && isFinite (PdfBox.height (e_pdfBox e)).

Section InBrowser.
Context {lib : PdfLib}.

(** [atob], which throws on text that is not base64. *)
Variable atob : string -> outcome bytes.

(** [for (const it of exportedItems) { ... }] *)
Fixpoint burn_items (img : image) (its : list Exported) (d : doc) : outcome doc :=
  match its with
  | [] => Ret d
  | it :: rest =>
      pg ← getPage d (VNum (e_pageIndex it));
      match pg with
      | None => burn_items img rest d
      | Some pg =>
          d' ← drawImage d pg img
                 (fit (image_width img) (image_height img) (e_pdfBox it));
          burn_items img rest d'
      end
  end.

(** [src] is the PDF the function finds ([pdfBlob], [pdfData] or the bytes
    behind [pdfUrlState]); the result is the bytes offered for download, or
    the [error] of [{ success: false, error }].  The message about the
    header goes on with the bytes found. *)
Definition burnInLocallyMultiple (src : option bytes) (exportedItems : list Exported)
    (signatureDataUrl : option string) : outcome bytes :=
  match src with
  | None => Throw "No PDF available. Reload the file or upload it first."
  | Some src =>
      if negb (pdf_header src) then Throw "Invalid PDF header"
      else
        pdfDoc ← load src;
        match signatureDataUrl with
        | None => Throw "Signature data URL invalid"
        | Some sig =>
            if missing (Some sig) || negb (includes "," sig)
            then Throw "Signature data URL invalid"
            else
              let meta := before_comma sig in
              let base64 := imgData sig in
              if missing (Some base64) then Throw "Signature base64 missing"
              else
                let isPng := includes "image/png" meta in
                imgUint8 ← atob base64;
                '(img, pdfDoc) ← (if isPng then embedPng pdfDoc imgUint8
                                  else embedJpg pdfDoc imgUint8);
                pdfDoc ← burn_items img exportedItems pdfDoc;
                save pdfDoc
        end
  end.

End InBrowser.

End Editor.

(** * Properties *)

Import JS Coord Fit Server.

(** ** Boolean tests *)

Lemma Qc_ltb_lt (a b : Qc) : Qc_ltb a b = true <-> a < b.
Proof.
  unfold Qc_ltb. rewrite Qclt_alt. destruct (a ?= b); split; congruence.
Qed.

Lemma Qc_ltb_ge (a b : Qc) : Qc_ltb a b = false <-> b <= a.
Proof.
  rewrite <- not_true_iff_false, Qc_ltb_lt. split.
  - apply Qcnot_lt_le.
  - intros H1 H2. exact (Qcle_not_lt _ _ H1 H2).
Qed.

Lemma Qc_eqb_eq (a b : Qc) : Qc_eqb a b = true <-> a = b.
Proof.
  unfold Qc_eqb. rewrite Qceq_alt. destruct (a ?= b); split; congruence.
Qed.

Lemma num_eqb_eq (a b : num) : num_eqb a b = true -> a = b.
Proof.
  destruct a, b; simpl; try congruence.
  intros H. f_equal. now apply Qc_eqb_eq.
Qed.

Lemma pdfBox_eqb_eq (a b : PdfBox.t) : pdfBox_eqb a b = true -> a = b.
Proof.
  destruct a, b. unfold pdfBox_eqb. simpl.
  rewrite !andb_true_iff. intros [[[Hx Hy] Hw] Hh].
  f_equal; now apply num_eqb_eq.
Qed.

Lemma mapped_eqb_eq (a b : Mapped) : mapped_eqb a b = true -> a = b.
Proof.
  destruct a as [pa [? ? ? ?]], b as [pb [? ? ? ?]]. unfold mapped_eqb. simpl.
  rewrite !andb_true_iff. intros [[[[Hp Hx] Hy] Hw] Hh].
  f_equal; [now apply pdfBox_eqb_eq|].
  f_equal; now apply num_eqb_eq.
Qed.

(** ** Comparisons, divisions and roundings on rationals *)

(** Turns a goal on canonical rationals into the same goal on [Q], where
    [lra], [nra] and [field] apply. *)
Ltac qc_unfold :=
  unfold Qcdiv, Qcminus, qc in *;
  unfold Qclt, Qcle, Qcplus, Qcmult, Qcinv, Qcopp, Q2Qc in *;
  cbn [this] in *;
  repeat match goal with
         | H : context [Qred _] |- _ => setoid_rewrite Qred_correct in H
         end;
  repeat setoid_rewrite Qred_correct.

Lemma ofZ_0 : ofZ 0 = Fin 0.
Proof. reflexivity. Qed.

Lemma ofZ_1 : ofZ 1 = Fin 1.
Proof. reflexivity. Qed.

Lemma Qc_ltb_irrefl (a : Qc) : Qc_ltb a a = false.
Proof. apply Qc_ltb_ge, Qcle_refl. Qed.

Lemma clamp01_Fin (q : Qc) : clamp01 (Fin q) = Fin (clampQ q).
Proof.
  unfold clampQ, clamp01, Math_max, Math_min, isFinite, ltb, ofZ.
  change (qc 1 1) with 1. change (qc 0 1) with 0.
  destruct (Qc_ltb 1 q) eqn:H1.
  - apply Qc_ltb_lt in H1.
    assert (H0 : Qc_ltb q 0 = false) by (apply Qc_ltb_ge; qc_unfold; lra).
    rewrite H0.
    assert (Hq : Qc_ltb q 1 = false) by (apply Qc_ltb_ge; qc_unfold; lra).
    rewrite Hq. reflexivity.
  - apply Qc_ltb_ge in H1.
    destruct (Qc_ltb q 1) eqn:Hq.
    + destruct (Qc_ltb q 0) eqn:H0.
      * apply Qc_ltb_lt in H0.
        assert (H : Qc_ltb 0 q = false) by (apply Qc_ltb_ge; qc_unfold; lra).
        now rewrite H.
      * apply Qc_ltb_ge in H0.
        destruct (Qc_ltb 0 q) eqn:H; [reflexivity|].
        apply Qc_ltb_ge in H. f_equal. now apply Qcle_antisym.
    + apply Qc_ltb_ge in Hq.
      assert (q = 1) by now apply Qcle_antisym. subst q.
      reflexivity.
Qed.

Lemma clamp01_not_finite (v : num) : isFinite v = false -> clamp01 v = ofZ 0.
Proof. destruct v; [discriminate|reflexivity..]. Qed.



Lemma safe_Fin_pos (q : Qc) : 0 < q -> safe (Fin q) = Fin q.
Proof.
  intros H. unfold safe, gtb, ltb, ofZ. change (qc 0 1) with 0.
  apply Qc_ltb_lt in H. now rewrite H.
Qed.

Lemma div_Fin_pos (a b : Qc) : 0 < b -> div (Fin a) (Fin b) = Fin (a / b).
Proof.
  intros H. unfold div.
  destruct (Qc_eqb b 0) eqn:E; [|reflexivity].
  apply Qc_eqb_eq in E. subst b. now apply Qclt_not_eq in H.
Qed.

Lemma rnd_Fin (q : Qc) : rnd (Fin q) = Fin (rndQ q).
Proof. reflexivity. Qed.



Lemma round_half_up_Z (z : Z) : round_half_up (qc z 1) = z.
Proof.
  unfold round_half_up.
  pose proof (Qfloor_le (qc z 1 + qc 1 2)%Q) as Hle.
  pose proof (Qlt_floor (qc z 1 + qc 1 2)%Q) as Hlt.
  rewrite inject_Z_plus in Hlt.
  set (f := Qfloor _) in *. clearbody f.
  change (inject_Z 1) with 1%Q in Hlt.
  qc_unfold. change (z # 1)%Q with (inject_Z z) in *.
  assert (H1 : (inject_Z f < inject_Z (z + 1))%Q).
  { rewrite inject_Z_plus. change (inject_Z 1) with 1%Q. lra. }
  assert (H2 : (inject_Z (z - 1) < inject_Z f)%Q).
  { unfold Z.sub. rewrite inject_Z_plus, inject_Z_opp.
    change (inject_Z 1) with 1%Q. lra. }
  rewrite <- Zlt_Qlt in H1, H2. lia.
Qed.

(** ** The coordinate mapper *)

(** C1: the mapper on the box [{left:0, top:0, width:100, height:200}]
    rendered at 200 x 400 on a 595 x 842 point page returns the fractions
    [{0, 0, 0.5, 0.5}] and the point box [{x:0, y:421, width:297.5,
    height:421}]; [y] is the flipped distance from the bottom,
    [clamp01 ((400 - 0 - 200) / 400) * 842]. *)
Theorem cssBoxToPdfPoints_example :
  let m := cssBoxToPdfPoints (cssBox (ofZ 0) (ofZ 0) (ofZ 100) (ofZ 200))
             (size (ofZ 200) (ofZ 400)) (size (ofZ 595) (ofZ 842)) in
  m = {| pdfBox := PdfBox.mk (ofZ 0) (ofZ 421) (Fin (qc 2975 10)) (ofZ 421);
         fractions := Fractions.mk (ofZ 0) (ofZ 0) (Fin (qc 1 2)) (Fin (qc 1 2)) |}
  /\ PdfBox.y (pdfBox m) =
       rnd (mul (clamp01 (div (sub (sub (ofZ 400) (ofZ 0)) (ofZ 200)) (ofZ 400)))
                (ofZ 842)).
Proof.
  split.
  - apply mapped_eqb_eq. vm_compute. reflexivity.
  - apply num_eqb_eq. vm_compute. reflexivity.
Qed.




Lemma falsy_not_positive (d : value) :
  truthy d = false -> gtb (Number d) (ofZ 0) = false.
Proof.
  destruct d as [| |[|]|[q| | |]|s]; simpl; try discriminate; try reflexivity.
  - rewrite negb_false_iff, Qc_eqb_eq. intros ->. reflexivity.
  - destruct s; [reflexivity|discriminate].
Qed.

Lemma safe_coerce (d : value) :
  safe (Number (js_or d (VNum (ofZ 1)))) =
    if gtb (Number d) (ofZ 0) then Number d else ofZ 1.
Proof.
  unfold js_or. destruct (truthy d) eqn:T; [reflexivity|].
  now rewrite (falsy_not_positive d T).
Qed.



(** ** Absent and non-numeric fields of the pixel box *)

Lemma truthy_false_iff (v : value) :
  truthy v = false <->
  v = VUndefined \/ v = VNull \/ v = VBool false \/ v = VNum NaN
  \/ v = VNum (ofZ 0) \/ v = VStr EmptyString.
Proof.
  split.
  - destruct v as [| |[|]|[q| | |]|[|c s]]; simpl; try discriminate; auto 7.
    rewrite negb_false_iff, Qc_eqb_eq. intros ->. auto 7.
  - intros [->|[->|[->|[->|[->| ->]]]]]; reflexivity.
Qed.

(** C7, as stated, fails: with the non-numeric [top: "abc"] the point box has
    [y = 0], with [top: 0] it has [y = 631.5]. *)
Lemma non_numeric_top_is_not_zero :
  let rs := size (ofZ 200) (ofZ 400) in
  let ps := size (ofZ 595) (ofZ 842) in
  let m1 := cssBoxToPdfPoints
              (CssBox.mk (VNum (ofZ 0)) (VStr "abc") (VNum (ofZ 100)) (VNum (ofZ 100)))
              rs ps in
  let m0 := cssBoxToPdfPoints
              (CssBox.mk (VNum (ofZ 0)) (VNum (ofZ 0)) (VNum (ofZ 100)) (VNum (ofZ 100)))
              rs ps in
  PdfBox.y (pdfBox m1) = ofZ 0
  /\ PdfBox.y (pdfBox m0) = Fin (qc 6315 10)
  /\ m1 <> m0.
Proof.
  cbv zeta. split; [|split].
  - apply num_eqb_eq. vm_compute. reflexivity.
  - apply num_eqb_eq. vm_compute. reflexivity.
  - intros H. apply (f_equal (fun m => isFinite (div (ofZ 1) (PdfBox.y (pdfBox m))))) in H.
    vm_compute in H. discriminate H.
Qed.

(** C7, amended: a field of the pixel box that is falsy -- absent
    ([undefined]), [null], [false], [NaN], [0] or the empty string -- is
    treated as 0: the mapper returns what it returns with that field
    replaced by the number 0. *)
Theorem falsy_field_is_zero (f : field) (box : CssBox.t)
    (renderedSize pageSizePoints : Size.t) :
  truthy (get_field f box) = false ->
  cssBoxToPdfPoints box renderedSize pageSizePoints
  = cssBoxToPdfPoints (set_field f (VNum (ofZ 0)) box) renderedSize pageSizePoints.
Proof.
  intros H.
  assert (E : js_or (get_field f box) (VNum (ofZ 0)) = js_or (VNum (ofZ 0)) (VNum (ofZ 0))).
  { unfold js_or. now rewrite H. }
  destruct box as [l t w h]. unfold cssBoxToPdfPoints.
  destruct f; cbn [get_field set_field CssBox.left CssBox.top CssBox.width CssBox.height] in *;
    now rewrite E.
Qed.

Lemma falsy_field_is_zero_witness :
  truthy (get_field Top (CssBox.mk (VNum (ofZ 5)) VUndefined (VNum (ofZ 100)) (VStr EmptyString))) = false
  /\ cssBoxToPdfPoints
       (CssBox.mk (VNum (ofZ 5)) VUndefined (VNum (ofZ 100)) (VStr EmptyString))
       (size (ofZ 200) (ofZ 400)) (size (ofZ 595) (ofZ 842))
     = cssBoxToPdfPoints
         (CssBox.mk (VNum (ofZ 5)) (VNum (ofZ 0)) (VNum (ofZ 100)) (VStr EmptyString))
         (size (ofZ 200) (ofZ 400)) (size (ofZ 595) (ofZ 842)).
Proof.
  split; [reflexivity|].
  exact (falsy_field_is_zero Top
           (CssBox.mk (VNum (ofZ 5)) VUndefined (VNum (ofZ 100)) (VStr EmptyString))
           (size (ofZ 200) (ofZ 400)) (size (ofZ 595) (ofZ 842)) eq_refl).
Defined.

(** ** Bounds on the point box *)




Lemma clampQ_range (q : Qc) : 0 <= clampQ q /\ clampQ q <= 1.
Proof.
  unfold clampQ.
  destruct (Qc_ltb q 0) eqn:H0; [split; [apply Qcle_refl|now vm_compute]|].
  destruct (Qc_ltb 1 q) eqn:H1; [split; [now vm_compute|apply Qcle_refl]|].
  apply Qc_ltb_ge in H0, H1. now split.
Qed.




Lemma Number_or0_Fin (q : Qc) :
  Number (js_or (VNum (Fin q)) (VNum (ofZ 0))) = Fin q.
Proof.
  unfold js_or, truthy. destruct (Qc_eqb q 0) eqn:E; [|reflexivity].
  apply Qc_eqb_eq in E. now subst q.
Qed.

Lemma safe_size (q : Qc) :
  0 < q -> safe (Number (js_or (VNum (Fin q)) (VNum (ofZ 1)))) = Fin q.
Proof.
  intros H. rewrite safe_coerce. cbn [Number].
  unfold gtb, ltb, ofZ. change (qc 0 1) with 0.
  apply Qc_ltb_lt in H. now rewrite H.
Qed.







(** ** The round trip through the fractions *)



Lemma toFixed6_Fin (c : Qc) : 0 <= c -> c <= 1 -> toFixed6 (Fin c) = Fin (fix6Q c).
Proof.
  intros H0 H1. unfold toFixed6.
  assert (Hn : Qc_ltb c 0 = false) by now apply Qc_ltb_ge.
  assert (Hb : Qc_ltb c (qc (10 ^ 21) 1) = true).
  { apply Qc_ltb_lt. apply Qcle_lt_trans with 1; [assumption|now vm_compute]. }
  now rewrite Hn, Hb.
Qed.






(** The mapper on rational inputs with positive sizes, in closed form. *)
Section PositiveSizes.
Variables rw rh pw ph : Qc.
Hypotheses (Hrw : 0 < rw) (Hrh : 0 < rh) (Hpw : 0 < pw) (Hph : 0 < ph).

Lemma mapper_numeric (l t w h : Qc) :
  cssBoxToPdfPoints (cssBox (Fin l) (Fin t) (Fin w) (Fin h))
    (size (Fin rw) (Fin rh)) (size (Fin pw) (Fin ph))
  = {| pdfBox :=
         PdfBox.mk (Fin (rndQ (clampQ (l / rw) * pw)))
                   (Fin (rndQ (clampQ ((rh - t - h) / rh) * ph)))
                   (Fin (rndQ (clampQ (w / rw) * pw)))
                   (Fin (rndQ (clampQ (h / rh) * ph)));
       fractions :=
         Fractions.mk (Fin (fix6Q (clampQ (l / rw))))
                      (Fin (fix6Q (clampQ (t / rh))))
                      (Fin (fix6Q (clampQ (w / rw))))
                      (Fin (fix6Q (clampQ (h / rh)))) |}.
Proof using Hrw Hrh Hpw Hph.
  unfold cssBoxToPdfPoints, cssBox, size. cbv zeta.
  cbn [CssBox.left CssBox.top CssBox.width CssBox.height Size.width Size.height].
  rewrite !safe_size, !Number_or0_Fin by assumption.
  cbn [sub neg add]. rewrite !div_Fin_pos, !clamp01_Fin by assumption.
  cbn [mul]. rewrite !rnd_Fin.
  rewrite !toFixed6_Fin by apply clampQ_range.
  reflexivity.
Qed.

End PositiveSizes.












(** ** The fit block *)

(** C3: the fit block is width-bound exactly when [imgRatio > boxRatio]
    (the drawn width is the box width, the drawn height the box width over
    the image ratio) and height-bound otherwise (the drawn height is the box
    height, the drawn width the box height times the image ratio); the
    result is centred in the box; a 200 x 100 image in the box
    [{x:10, y:10, width:50, height:50}] gives [{x:10, y:22.5, width:50,
    height:25}]. *)
Theorem fit_width_or_height_bound (imgW imgH : num) (box : PdfBox.t) :
  let imgRatio := div imgW imgH in
  let boxRatio := div (PdfBox.width box) (PdfBox.height box) in
  let r := fit imgW imgH box in
  PdfBox.width r =
    (if gtb imgRatio boxRatio then PdfBox.width box
     else mul (PdfBox.height box) imgRatio)
  /\ PdfBox.height r =
    (if gtb imgRatio boxRatio then div (PdfBox.width box) imgRatio
     else PdfBox.height box)
  /\ PdfBox.x r =
       add (PdfBox.x box) (div (sub (PdfBox.width box) (PdfBox.width r)) (ofZ 2))
  /\ PdfBox.y r =
       add (PdfBox.y box) (div (sub (PdfBox.height box) (PdfBox.height r)) (ofZ 2))
  /\ fit (ofZ 200) (ofZ 100) (PdfBox.mk (ofZ 10) (ofZ 10) (ofZ 50) (ofZ 50))
     = PdfBox.mk (ofZ 10) (Fin (qc 225 10)) (ofZ 50) (ofZ 25).
Proof.
  cbv zeta. unfold fit.
  destruct (gtb (div imgW imgH) (div (PdfBox.width box) (PdfBox.height box)));
    cbn [PdfBox.width PdfBox.height PdfBox.x PdfBox.y];
    (repeat split; try reflexivity);
    apply pdfBox_eqb_eq; vm_compute; reflexivity.
Qed.

(** ** The fit rectangle *)






(** The two branches, for positive dimensions: the side that is computed
    fits in the box. *)
Section PositiveGeometry.
Variables iw ih bw bh : Qc.
Hypotheses (Hiw : 0 < iw) (Hih : 0 < ih) (Hbw : 0 < bw) (Hbh : 0 < bh).



End PositiveGeometry.



(** ** [/api/upload-pdf] *)

Import Toy.

Section UploadFacts.
Context {lib : PdfLib}.

Lemma findOne_Some (h : string) (coll : list UploadedDocument) (d : UploadedDocument) :
  findOne h coll = Some d -> d ∈ coll /\ u_pdfHash d = h.
Proof.
  unfold findOne. intros H. apply find_some in H as [Hin Heq].
  split; [now apply list_elem_of_In|]. now apply String.eqb_eq.
Qed.

Lemma findOne_None (h : string) (coll : list UploadedDocument) :
  findOne h coll = None -> h ∉ List.map u_pdfHash coll.
Proof.
  unfold findOne. intros H Hin.
  apply list_elem_of_In, in_map_iff in Hin as (d & Hd & Hin).
  pose proof (find_none _ _ H d Hin) as Hne. cbn in Hne.
  apply String.eqb_neq in Hne. contradiction.
Qed.


(** The hash the handler looks up and stores is the effective hash. *)
Lemma handler_hash (req : UploadReq) (w : World) (name : string) :
  let pdfHash :=
    if missing (body_pdfHash req) then
      match computeFileSha256Hex w name with
      | Ret h => Some h
      | Throw _ => body_pdfHash req
      end
    else body_pdfHash req in
  (if missing pdfHash then None else pdfHash) = effective_hash req w name.
Proof.
  unfold effective_hash, computeFileSha256Hex. cbv zeta.
  destruct (missing (body_pdfHash req)) eqn:M.
  - destruct (storage w !! name) as [buf|]; [reflexivity|]. now rewrite M.
  - now rewrite M.
Qed.


Lemma create_appends (pdfId pdfPath : string) (pdfHash : option string)
    (name : string) (sz : Z) (coll coll' : list UploadedDocument)
    (d : UploadedDocument) :
  create pdfId pdfPath pdfHash name sz coll = Ret (d, coll') ->
  coll' = coll ++ [d] /\ pdfHash = Some (u_pdfHash d).
Proof.
  unfold create.
  destruct (missing (Some pdfId) || missing (Some pdfPath) || missing pdfHash) eqn:M;
    [discriminate|].
  destruct (existsb _ coll); [discriminate|].
  intros [= <- <-]. split; [reflexivity|].
  destruct pdfHash as [h|]; [reflexivity|].
  rewrite orb_true_r in M. discriminate.
Qed.

End UploadFacts.




(** ** [/api/sign-pdf-multi] *)

Section SignMultiFacts.
Context {lib : PdfLib}.


(** The loop throws only where pdf-lib throws or a [pdfBox] is absent. *)
Lemma draw_items_total (img : image) (its : list Item.t) :
  (forall d i, exists p, getPage d i = Ret p) ->
  (forall d p r, exists d', drawImage d p img r = Ret d') ->
  Forall (fun it => is_Some (Item.pdfBox it)) its ->
  forall d, exists d', draw_items img its d = Ret d'.
Proof.
  intros Hg Hd Hb. induction Hb as [|it its [b Hb] _ IH]; intros d.
  - now exists d.
  - cbn [draw_items]. destruct (Hg d (Item.pageIndex it)) as [[pg|] ->]; cbn.
    + rewrite Hb. cbn. destruct (Hd d pg (fit (image_width img) (image_height img) b))
        as [d' ->]. cbn. apply IH.
    + apply IH.
Qed.


End SignMultiFacts.



(** ** Degenerate geometry *)





(** * Further properties of the server *)

Import Api.

(** ** [/api/check-pdf] and [/api/upload-pdf] *)

(** X1: [/api/check-pdf] answers [exists: true] exactly when a stored record
    has the hash asked for; the record it returns is stored, has that hash,
    and [url] is its [pdfPath]. *)
Theorem check_pdf_sound_complete (h : string) (w : World) :
  h <> EmptyString ->
  (forall (url : string) (d : UploadedDocument),
     check_pdf (Some h) w = (200%nat, CFound url d) ->
     d ∈ uploads w /\ u_pdfHash d = h /\ url = u_pdfPath d)
  /\ ((exists url d, check_pdf (Some h) w = (200%nat, CFound url d))
      <-> exists d, d ∈ uploads w /\ u_pdfHash d = h)
  /\ (check_pdf (Some h) w = (200%nat, CAbsent)
      <-> forall d, d ∈ uploads w -> u_pdfHash d <> h).
Proof.
  intros Hh. unfold check_pdf.
  assert (M : missing (Some h) = false) by now destruct h.
  rewrite M. change (default EmptyString (Some h)) with h.
  destruct (findOne h (uploads w)) as [e|] eqn:F.
  - apply findOne_Some in F as [Hin He]. split; [|split].
    + intros url d [= <- <-]. auto.
    + split; [intros _; now exists e|intros _; now exists (u_pdfPath e), e].
    + split; [discriminate|]. intros Hall. now destruct (Hall e Hin).
  - pose proof (findOne_None _ _ F) as Hn.
    assert (Hall : forall d, d ∈ uploads w -> u_pdfHash d <> h).
    { intros d Hd E. apply Hn. rewrite <- E.
      apply list_elem_of_In, in_map, list_elem_of_In, Hd. }
    split; [|split].
    + discriminate.
    + split; [intros (url & d & [=])|intros (d & Hd & E); now destruct (Hall d Hd)].
    + split; [intros _; exact Hall|reflexivity].
Qed.

Lemma check_pdf_sound_complete_witness :
  sha256Hex scan <> EmptyString
  /\ check_pdf (Some (sha256Hex scan)) uploaded_world
     = (200%nat, CFound "/storage/scan-1.pdf" scan1)
  /\ scan1 ∈ uploads uploaded_world.
Proof.
  assert (Hh : sha256Hex scan <> EmptyString) by discriminate.
  destruct (check_pdf_sound_complete (sha256Hex scan) uploaded_world Hh) as [H _].
  destruct (H "/storage/scan-1.pdf" scan1 eq_refl) as [Hin _].
  repeat split; [exact Hh|exact Hin].
Defined.

Lemma findOne_app_new (h : string) (coll : list UploadedDocument) (d : UploadedDocument) :
  findOne h coll = None -> u_pdfHash d = h -> findOne h (coll ++ [d]) = Some d.
Proof.
  unfold findOne. intros Hn Hd. induction coll as [|e coll IH]; cbn in *.
  - apply String.eqb_eq in Hd. now rewrite Hd.
  - destruct (String.eqb (u_pdfHash e) h); [discriminate|now apply IH].
Qed.

(** X2: after an upload answered [exists: false], [/api/check-pdf] asked
    for the hash of the new record answers [exists: true] with the URL and
    the record of that upload; the URL is [/storage/] followed by the stored
    file name and the [pdfId] is that name without [.pdf]. *)
Theorem upload_then_check {lib : PdfLib} (req : UploadReq) (w : World)
    (f : File.t) (url id : string) (d : UploadedDocument) :
  file req = Some f ->
  fst (upload_pdf req w) = ok (BUpload false url id d) ->
  let w' := snd (upload_pdf req w) in
  effective_hash req w (File.filename f) = Some (u_pdfHash d)
  /\ check_pdf (Some (u_pdfHash d)) w' = (200%nat, CFound url d)
  /\ url = "/storage/" +:+ File.filename f
  /\ id = strip_pdf (File.filename f)
  /\ uploads w' = uploads w ++ [d].
Proof.
  intros Hf. unfold upload_pdf. rewrite Hf.
  pose proof (handler_hash req w (File.filename f)) as Hh. cbv zeta in Hh.
  set (pdfHash := if missing (body_pdfHash req) then _ else _) in *.
  destruct (if missing pdfHash then None
            else findOne (default EmptyString pdfHash) (uploads w)) as [e|] eqn:F;
    [discriminate|].
  destruct (create _ _ _ _ _ _) as [[c coll]|msg] eqn:C; [|discriminate].
  cbn [fst snd]. intros [= <- <- <-].
  unfold create in C.
  destruct (missing (Some (strip_pdf (File.filename f)))
            || missing (Some ("/storage/" +:+ File.filename f))
            || missing (if missing pdfHash then None else pdfHash)) eqn:M;
    [discriminate|].
  destruct (existsb _ (uploads w)); [discriminate|].
  injection C as <- <-.
  destruct (missing pdfHash) eqn:Mp; [now rewrite orb_true_r in M|].
  destruct pdfHash as [h|] eqn:Ep; [|discriminate].
  cbn [u_pdfHash u_pdfPath uploads] in *.
  change (default EmptyString (Some h)) with h in *.
  repeat split.
  - now rewrite <- Hh.
  - unfold check_pdf. rewrite Mp. cbn [uploads].
    change (default EmptyString (Some h)) with h.
    rewrite findOne_app_new; [reflexivity|exact F|reflexivity].
Qed.

Lemma upload_then_check_witness :
  let d := {| u_pdfId := "scan-2"; u_pdfPath := "/storage/scan-2.pdf";
              u_pdfHash := "0000"; u_originalFilename := "scan.pdf"; u_size := 4 |} in
  (file reupload_other_hash = Some scan2
   /\ fst (upload_pdf reupload_other_hash uploaded_world)
      = ok (BUpload false "/storage/scan-2.pdf" "scan-2" d))
  /\ check_pdf (Some "0000") (snd (upload_pdf reupload_other_hash uploaded_world))
     = (200%nat, CFound "/storage/scan-2.pdf" d).
Proof.
  intros d.
  destruct (upload_then_check (lib := Toy.lib) reupload_other_hash uploaded_world
              scan2 "/storage/scan-2.pdf" "scan-2" d eq_refl eq_refl)
    as (_ & H & _).
  split; [split; reflexivity|exact H].
Defined.

(** X3: the client's check and the upload agree.  When [/api/check-pdf]
    answers [exists: true] for a hash, an upload sent with that hash in the
    form field is answered with the same URL and record, its file is deleted
    and nothing is stored; when it answers [exists: false], such an upload is
    never answered [exists: true]. *)
Theorem check_agrees_with_upload {lib : PdfLib} (req : UploadReq) (w : World)
    (f : File.t) (h : string) :
  file req = Some f -> body_pdfHash req = Some h -> h <> EmptyString ->
  (forall url d,
     check_pdf (Some h) w = (200%nat, CFound url d) ->
     upload_pdf req w
     = (ok (BUpload true url (u_pdfId d) d),
        {| storage := delete (File.filename f) (storage w);
           uploads := uploads w; audits := audits w |}))
  /\ (check_pdf (Some h) w = (200%nat, CAbsent) ->
      forall url id d, fst (upload_pdf req w) <> ok (BUpload true url id d)).
Proof.
  intros Hf Hb Hh.
  assert (M : missing (Some h) = false) by now destruct h.
  unfold check_pdf, upload_pdf. cbv zeta. rewrite Hf, Hb, !M.
  change (default EmptyString (Some h)) with h.
  destruct (findOne h (uploads w)) as [e|] eqn:F; split.
  - intros url d [= <- <-]. reflexivity.
  - discriminate.
  - discriminate.
  - intros _ url id d. destruct (create _ _ _ _ _ _) as [[c coll]|msg]; discriminate.
Qed.

Lemma check_agrees_with_upload_witness :
  let req := {| file := Some scan2; body_pdfHash := Some (sha256Hex scan) |} in
  (sha256Hex scan <> EmptyString
   /\ check_pdf (Some (sha256Hex scan)) uploaded_world
      = (200%nat, CFound "/storage/scan-1.pdf" scan1))
  /\ fst (upload_pdf req uploaded_world)
     = ok (BUpload true "/storage/scan-1.pdf" "scan-1" scan1).
Proof.
  intros req.
  assert (Hh : sha256Hex scan <> EmptyString) by discriminate.
  destruct (check_agrees_with_upload (lib := Toy.lib) req uploaded_world scan2
              (sha256Hex scan) eq_refl eq_refl Hh) as [H _].
  split; [split; [exact Hh|reflexivity]|].
  now rewrite (H "/storage/scan-1.pdf" scan1 eq_refl).
Defined.

(** X4: an upload touches no stored file but its own, adds at most one
    record at the end of the collection and no audit record; an upload that
    is not answered with status 200 changes nothing, so the file multer
    wrote stays in the storage directory. *)
Theorem upload_pdf_frame {lib : PdfLib} (req : UploadReq) (w : World) :
  let r := fst (upload_pdf req w) in
  let w' := snd (upload_pdf req w) in
  audits w' = audits w
  /\ (exists l, uploads w' = uploads w ++ l /\ (length l <= 1)%nat)
  /\ (status r <> 200%nat -> w' = w)
  /\ (forall f name, file req = Some f -> name <> File.filename f ->
        storage w' !! name = storage w !! name).
Proof.
  unfold upload_pdf. destruct (file req) as [f|].
  2:{ cbn. split; [reflexivity|]. split; [exists []; rewrite app_nil_r; split; [reflexivity|cbn; lia]|].
      split; [reflexivity|discriminate]. }
  cbv zeta.
  set (pdfHash := if missing (body_pdfHash req) then _ else _).
  destruct (if missing pdfHash then None else _) as [e|].
  - cbn. split; [reflexivity|]. split; [exists []; rewrite app_nil_r; split; [reflexivity|cbn; lia]|].
    split; [intros H; now destruct H|].
    intros f' name [= <-] Hne. now apply lookup_delete_ne.
  - destruct (create _ _ _ _ _ _) as [[c coll]|msg] eqn:C.
    + apply create_appends in C as [-> _]. cbn.
      split; [reflexivity|]. split; [exists [c]; split; [reflexivity|cbn; lia]|].
      split; [intros H; now destruct H|reflexivity].
    + cbn. split; [reflexivity|]. split; [exists []; rewrite app_nil_r; split; [reflexivity|cbn; lia]|].
      split; reflexivity.
Qed.

(** ** File names *)

Lemma append_cons (c : ascii) (s t : string) :
  String c s +:+ t = String c (s +:+ t).
Proof. reflexivity. Qed.

Lemma append_length (s t : string) :
  String.length (s +:+ t) = (String.length s + String.length t)%nat.
Proof.
  induction s as [|c s IH]; [reflexivity|].
  rewrite append_cons. cbn [String.length]. now rewrite IH.
Qed.

Lemma append_inj_r (s1 s2 t : string) : s1 +:+ t = s2 +:+ t -> s1 = s2.
Proof.
  revert s2. induction s1 as [|c s1 IH]; intros [|c2 s2] E.
  - reflexivity.
  - apply (f_equal String.length) in E. rewrite !append_length in E. cbn in E. lia.
  - apply (f_equal String.length) in E. rewrite !append_length in E. cbn in E. lia.
  - rewrite !append_cons in E. injection E as -> E. f_equal. now apply IH.
Qed.

Lemma append_assoc (s t u : string) : (s +:+ t) +:+ u = s +:+ t +:+ u.
Proof.
  induction s as [|c s IH]; [reflexivity|].
  rewrite !append_cons. now rewrite IH.
Qed.


(** Signed copies made at different times have different names. *)
Lemma signed_name_inj (id tag : string) (t1 t2 : Z) :
  id +:+ tag +:+ pretty t1 +:+ ".pdf" = id +:+ tag +:+ pretty t2 +:+ ".pdf" -> t1 = t2.
Proof.
  intros E. apply (inj (String.append id)), (inj (String.append tag)) in E.
  apply append_inj_r in E. now apply (inj pretty) in E.
Qed.

(** ** [/api/sign-pdf-multi]: what a request changes *)

(** A file other than the signed copy is left as it was. *)
Lemma sign_pdf_multi_other_files {lib : PdfLib} (req : SignMultiReq) (now : Z) (w : World)
    (id name : string) :
  pdfId req = Some id ->
  name <> id +:+ "-signed-multi-" +:+ pretty now +:+ ".pdf" ->
  storage (snd (sign_pdf_multi req now w)) !! name = storage w !! name.
Proof.
  intros Hid Hne. unfold sign_pdf_multi. rewrite Hid.
  destruct id as [|c id]; [reflexivity|].
  destruct (items req) as [[|it its]|]; try reflexivity.
  destruct (signatureBase64 req) as [[|c' sig]|]; try reflexivity.
  cbv zeta. destruct (storage w !! _) as [orig|]; [|reflexivity].
  destruct (signed_bytes _ _ _) as [out|e]; [|reflexivity].
  cbn [snd storage]. now apply lookup_insert_ne.
Qed.

(** What a success reply of [/api/sign-pdf-multi] tells about the request. *)
Lemma sign_pdf_multi_ok_inv {lib : PdfLib} (req : SignMultiReq) (now : Z) (w : World)
    (url before after : string) :
  fst (sign_pdf_multi req now w) = ok (BSigned url before after) ->
  exists (id sig : string) (its : list Item.t) (orig out : bytes),
    pdfId req = Some id /\ id <> EmptyString
    /\ items req = Some its /\ its <> []
    /\ signatureBase64 req = Some sig /\ sig <> EmptyString
    /\ storage w !! (id +:+ ".pdf") = Some orig
    /\ signed_bytes orig sig its = Ret out
    /\ url = "/storage/" +:+ id +:+ "-signed-multi-" +:+ pretty now +:+ ".pdf"
    /\ before = sha256Hex orig /\ after = sha256Hex out.
Proof.
  unfold sign_pdf_multi.
  destruct (pdfId req) as [[|c id]|]; try discriminate.
  destruct (items req) as [[|it its]|]; try discriminate.
  destruct (signatureBase64 req) as [[|c' sig]|]; try discriminate.
  cbv zeta. destruct (storage w !! _) as [orig|] eqn:Hst; [|discriminate].
  destruct (signed_bytes _ _ _) as [out|e] eqn:Hout; [|discriminate].
  cbn [fst]. intros [= <- <- <-].
  exists (String c id), (String c' sig), (it :: its), orig, out.
  repeat split; try reflexivity; try discriminate; assumption.
Qed.




(** X7: two signings of the same PDF at different times do not overwrite
    each other: the copy written by the first is still there, unchanged,
    after the second. *)
Theorem signed_copies_do_not_collide {lib : PdfLib} (req1 req2 : SignMultiReq)
    (t1 t2 : Z) (w : World) (id : string) :
  pdfId req1 = Some id -> pdfId req2 = Some id -> t1 <> t2 ->
  let w1 := snd (sign_pdf_multi req1 t1 w) in
  let w2 := snd (sign_pdf_multi req2 t2 w1) in
  let out1 := id +:+ "-signed-multi-" +:+ pretty t1 +:+ ".pdf" in
  storage w2 !! out1 = storage w1 !! out1.
Proof.
  intros H1 H2 Ht w1 w2 out1.
  apply (sign_pdf_multi_other_files req2 t2 w1 id out1 H2).
  intros E. apply signed_name_inj in E. contradiction.
Qed.

Lemma signed_copies_do_not_collide_witness :
  let w1 := snd (sign_pdf_multi missing_page_req 1700000000000 world) in
  let w2 := snd (sign_pdf_multi flat_box_req 1700000000001 w1) in
  (1700000000000 <> 1700000000001)%Z
  /\ storage w2 !! "contract-signed-multi-1700000000000.pdf"
     = storage w1 !! "contract-signed-multi-1700000000000.pdf".
Proof.
  intros w1 w2.
  assert (Ht : (1700000000000 <> 1700000000001)%Z) by lia.
  split; [exact Ht|].
  exact (signed_copies_do_not_collide (lib := Toy.lib) missing_page_req flat_box_req
           1700000000000 1700000000001 world "contract" eq_refl eq_refl Ht).
Defined.

(** ** The three single-signature paths *)

Section SingleFacts.
Context {lib : PdfLib}.

(** The continuation of [/api/sign-pdf] after [getPage]. *)
Lemma sign_one_open_page (orig : bytes) (sig : string) (p : value) (b : PdfBox.t) :
  sign_one orig sig p b
  = ('(d, img, pg) ← open_page orig sig p;
     match pg with
     | None => Throw "Cannot read properties of undefined (reading 'drawImage')"
     | Some pg =>
         d' ← drawImage d pg img (fit (image_width img) (image_height img) b);
         save d'
     end).
Proof.
  unfold sign_one, open_page.
  destruct (load orig) as [d|e]; [|reflexivity]. cbn.
  destruct (if isPng sig then _ else _) as [[img d']|e]; [|reflexivity]. cbn.
  destruct (getPage d' p) as [pg|e]; reflexivity.
Qed.


(** The two handlers once the four fields have passed the test. *)
Lemma sign_pdf_present (id sig : string) (p : value) (b : PdfBox.t) (now : Z) (w : World) :
  id <> EmptyString -> sig <> EmptyString -> p <> VUndefined ->
  sign_pdf (Sign.mk (Some id) p (Some b) (Some sig)) now w
  = match storage w !! (id +:+ ".pdf") with
    | None =>
        ({| status := 400;
            json := BError ("original PDF not found: " +:+ id +:+ ".pdf") |}, w)
    | Some orig =>
        match sign_one orig sig p b with
        | Throw e => ({| status := 500; json := BError (message_or e "Sign failed") |}, w)
        | Ret out =>
            let outName := id +:+ "-signed-" +:+ pretty now +:+ ".pdf" in
            (ok (BSigned ("/storage/" +:+ outName) (sha256Hex orig) (sha256Hex out)),
             {| storage := <[outName := out]> (storage w);
                uploads := uploads w;
                audits := audits w ++
                  [[docRecord id p ("/storage/" +:+ id +:+ ".pdf")
                      ("/storage/" +:+ outName) (sha256Hex orig) (sha256Hex out) sig]] |})
        end
    end.
Proof.
  intros Hid Hsig Hp. unfold sign_pdf.
  cbn [Sign.pdfId Sign.pageIndex Sign.pdfBox Sign.signatureBase64].
  destruct id as [|c id]; [contradiction|]. destruct sig as [|c' sig]; [contradiction|].
  destruct p; try contradiction; reflexivity.
Qed.

Lemma signPdfHandler_present (dir : string) (blocking : bool) (dbError : option string)
    (id sig : string) (p : value) (b : PdfBox.t) (now : Z) (w : World) :
  id <> EmptyString -> sig <> EmptyString -> p <> VUndefined ->
  signPdfHandler dir blocking dbError (Sign.mk (Some id) p (Some b) (Some sig)) now w
  = match storage w !! (id +:+ ".pdf") with
    | None => ({| status := 500; json := BError "ENOENT: no such file or directory" |}, w)
    | Some orig =>
        match open_page orig sig p with
        | Throw e => ({| status := 500; json := BError e |}, w)
        | Ret (_, _, None) => ({| status := 400; json := BError "Invalid pageIndex" |}, w)
        | Ret (d, img, Some pg) =>
            match (d' ← drawImage d pg img (fit (image_width img) (image_height img) b);
                   save d') with
            | Throw e => ({| status := 500; json := BError e |}, w)
            | Ret out =>
                let outName := id +:+ "-signed-" +:+ pretty now +:+ ".pdf" in
                let w' :=
                  {| storage := <[outName := out]> (storage w);
                     uploads := uploads w;
                     audits := audits w ++
                       [[docRecord id p (dir +:+ id +:+ ".pdf") (dir +:+ outName)
                           (sha256Hex orig) (sha256Hex out) sig]] |} in
                match blocking, dbError with
                | true, Some _ => ({| status := 500; json := BError "DB save failed" |}, w')
                | _, _ =>
                    (ok (BSigned ("/storage/" +:+ outName) (sha256Hex orig) (sha256Hex out)),
                     w')
                end
            end
        end
    end.
Proof.
  intros Hid Hsig Hp. unfold signPdfHandler.
  cbn [Sign.pdfId Sign.pageIndex Sign.pdfBox Sign.signatureBase64].
  destruct id as [|c id]; [contradiction|]. destruct sig as [|c' sig]; [contradiction|].
  destruct p; try contradiction; reflexivity.
Qed.

(** Only a request with the four fields gets past the first test. *)
Lemma sign_pdf_fields (req : Sign.t) (now : Z) (w : World) :
  (exists (id sig : string) (p : value) (b : PdfBox.t),
     req = Sign.mk (Some id) p (Some b) (Some sig)
     /\ id <> EmptyString /\ sig <> EmptyString /\ p <> VUndefined)
  \/ (sign_pdf req now w = ({| status := 400; json := BError "missing" |}, w)
      /\ forall dir blocking dbError,
           signPdfHandler dir blocking dbError req now w
           = ({| status := 400;
                 json := BError "Missing one of: pdfId, pageIndex, pdfBox, signatureBase64" |},
              w)).
Proof.
  destruct req as [[[|c id]|] p [b|] [[|c' sig]|]];
    try (right; split; [|intros dir blocking dbError];
         destruct p; reflexivity).
  assert (Hp : p = VUndefined \/ p <> VUndefined)
    by (destruct p; (now left) || (right; discriminate)).
  destruct Hp as [->|Hp].
  - right. split; [|intros dir blocking dbError]; reflexivity.
  - left. exists (String c id), (String c' sig), p, b. now repeat split.
Qed.

End SingleFacts.








(** ** Characters of file names *)

Lemma all_chars_cons (P : ascii -> bool) (c : ascii) (s : string) :
  all_chars P (String c s) = P c && all_chars P s.
Proof. reflexivity. Qed.

Lemma all_chars_append (P : ascii -> bool) (s t : string) :
  all_chars P (s +:+ t) = all_chars P s && all_chars P t.
Proof.
  induction s as [|c s IH]; [reflexivity|].
  rewrite append_cons, !all_chars_cons, IH. now rewrite andb_assoc.
Qed.

Lemma all_chars_weaken (P Q : ascii -> bool) (s : string) :
  (forall c, P c = true -> Q c = true) -> all_chars P s = true -> all_chars Q s = true.
Proof.
  intros HPQ. induction s as [|c s IH]; [reflexivity|].
  rewrite !all_chars_cons, !andb_true_iff. intros [H1 H2]. auto.
Qed.

Lemma pretty_N_go_chars (P : ascii -> bool) (x : N) (s : string) :
  (forall n, P (pretty_N_char n) = true) ->
  all_chars P s = true -> all_chars P (pretty_N_go x s) = true.
Proof.
  intros HP. revert s. induction (N.lt_wf_0 x) as [x _ IH]; intros s Hs.
  assert (x = 0 \/ 0 < x)%N as [->|Hx] by lia.
  - now rewrite pretty_N_go_0.
  - rewrite pretty_N_go_step by exact Hx. apply IH.
    + now apply N.div_lt.
    + rewrite all_chars_cons, HP. exact Hs.
Qed.

(** [Date.now()] prints as digits, after a dash if it is negative. *)
Lemma pretty_Z_chars (P : ascii -> bool) (z : Z) :
  (forall n, P (pretty_N_char n) = true) -> P "-"%char = true ->
  all_chars P (pretty z) = true.
Proof.
  intros HP Hd.
  assert (H0 : all_chars P "0" = true).
  { pose proof (HP 0%N) as H. cbn in H. unfold all_chars. cbn. now rewrite H. }
  assert (HN : forall n : N, all_chars P (pretty n) = true).
  { intros n. unfold pretty, pretty_N. destruct (decide (n = 0%N)).
    - exact H0.
    - now apply pretty_N_go_chars. }
  destruct z as [|q|q]; unfold pretty, pretty_Z.
  - exact H0.
  - apply HN.
  - rewrite all_chars_append, andb_true_iff. split; [|apply HN].
    unfold all_chars. cbn. now rewrite Hd.
Qed.

Lemma digit_name_char (n : N) : name_char (pretty_N_char n) = true.
Proof. unfold pretty_N_char. repeat case_match; reflexivity. Qed.

Lemma name_char_not_separator (c : ascii) :
  name_char c = true -> negb (is_separator c) = true.
Proof.
  destruct c as [[] [] [] [] [] [] [] []]; vm_compute; congruence.
Qed.

Lemma keep_name_chars_ok (s : string) : all_chars name_char (keep_name_chars s) = true.
Proof.
  induction s as [|c s IH]; [reflexivity|].
  cbn [keep_name_chars]. destruct (name_char c) eqn:E; [|exact IH].
  now rewrite all_chars_cons, E.
Qed.

Lemma strip_pdf_chars (P : ascii -> bool) (s : string) :
  all_chars P s = true -> all_chars P (strip_pdf s) = true.
Proof.
  induction s as [|c s IH]; [reflexivity|].
  rewrite all_chars_cons, andb_true_iff. intros [H1 H2].
  cbn [strip_pdf]. destruct (String.eqb _ _); [reflexivity|].
  rewrite all_chars_cons, H1. now apply IH.
Qed.

Lemma lowercase_length (s : string) : String.length (lowercase s) = String.length s.
Proof. induction s as [|c s IH]; cbn; [reflexivity|now rewrite IH]. Qed.

(** Removing [.pdf] undoes appending it. *)
Lemma strip_pdf_append (s : string) : strip_pdf (s +:+ ".pdf") = s.
Proof.
  induction s as [|c s IH]; [reflexivity|].
  rewrite append_cons. cbn [strip_pdf].
  destruct (String.eqb _ _) eqn:E; [|now rewrite IH].
  apply String.eqb_eq in E. apply (f_equal String.length) in E.
  rewrite lowercase_length in E. cbn [String.length] in E.
  rewrite append_length in E. cbn in E. lia.
Qed.

(** ** The file name of an upload *)

Lemma multer_filename_round_trip (originalname : option string) (now : Z) :
  strip_pdf (multer_filename originalname now) +:+ ".pdf"
  = multer_filename originalname now.
Proof.
  unfold multer_filename. set (base := keep_name_chars _).
  assert (E : strip_pdf base +:+ "-" +:+ pretty now +:+ ".pdf"
              = (strip_pdf base +:+ "-" +:+ pretty now) +:+ ".pdf")
    by now rewrite !append_assoc.
  now rewrite E, strip_pdf_append.
Qed.

(** What the reply to an upload that created a record tells. *)
Lemma upload_created {lib : PdfLib} (req : UploadReq) (w : World) (f : File.t)
    (url id : string) (d : UploadedDocument) :
  file req = Some f ->
  fst (upload_pdf req w) = ok (BUpload false url id d) ->
  url = "/storage/" +:+ File.filename f
  /\ id = strip_pdf (File.filename f)
  /\ effective_hash req w (File.filename f) = Some (u_pdfHash d)
  /\ snd (upload_pdf req w)
     = {| storage := storage w; uploads := uploads w ++ [d]; audits := audits w |}.
Proof.
  intros Hf. unfold upload_pdf. rewrite Hf.
  pose proof (handler_hash req w (File.filename f)) as Hh. cbv zeta in Hh.
  set (pdfHash := if missing (body_pdfHash req) then _ else _) in *.
  destruct (if missing pdfHash then None
            else findOne (default EmptyString pdfHash) (uploads w)) as [e|];
    [discriminate|].
  destruct (create _ _ _ _ _ _) as [[c coll]|msg] eqn:C; [|discriminate].
  cbn [fst snd]. intros [= <- <- <-].
  apply create_appends in C as [-> C]. rewrite C in Hh.
  repeat split. now symmetry.
Qed.

(** X12: the name multer gives an upload is made of letters, digits,
    [-], [_] and [.] only, whatever the client sent as [originalname]: it has
    no directory separator.  It ends in [.pdf], so that the [pdfId] of the
    upload, its name without [.pdf], gives the name back; and two uploads
    with the same [originalname] at different times get different names. *)
Theorem multer_filename_safe (originalname : option string) (now : Z) :
  let name := multer_filename originalname now in
  all_chars name_char name = true
  /\ separator_free name = true
  /\ strip_pdf name <> EmptyString
  /\ strip_pdf name +:+ ".pdf" = name
  /\ forall now', multer_filename originalname now' = name -> now' = now.
Proof.
  cbv zeta. unfold multer_filename.
  set (base := keep_name_chars _).
  assert (Hc : all_chars name_char (strip_pdf base +:+ "-" +:+ pretty now +:+ ".pdf") = true).
  { rewrite !all_chars_append, !andb_true_iff.
    split; [apply strip_pdf_chars, keep_name_chars_ok|].
    split; [reflexivity|]. split; [|reflexivity].
    apply pretty_Z_chars; [apply digit_name_char|reflexivity]. }
  assert (Hs : strip_pdf (strip_pdf base +:+ "-" +:+ pretty now +:+ ".pdf")
               = strip_pdf base +:+ "-" +:+ pretty now).
  { assert (E : strip_pdf base +:+ "-" +:+ pretty now +:+ ".pdf"
                = (strip_pdf base +:+ "-" +:+ pretty now) +:+ ".pdf")
      by now rewrite !append_assoc.
    now rewrite E, strip_pdf_append. }
  split; [exact Hc|].
  split; [exact (all_chars_weaken _ _ _ name_char_not_separator Hc)|].
  split.
  { rewrite Hs. intros E. apply (f_equal String.length) in E.
    rewrite !append_length in E. cbn [String.length] in E. lia. }
  split; [rewrite Hs; now rewrite !append_assoc|].
  intros now' E. now apply signed_name_inj in E.
Qed.

(** X13: an upload that creates a record can be signed under the [pdfId] it
    returns: [/api/sign-pdf-multi] finds the uploaded file under
    [<pdfId>.pdf], the [beforeHash] of a successful signing is the digest of
    the uploaded bytes, and it is the [pdfHash] of the upload record when
    the client sent no hash of its own. *)
Theorem uploaded_pdf_can_be_signed {lib : PdfLib}
    (originalname : option string) (t now : Z) (f : File.t) (up : UploadReq)
    (sreq : SignMultiReq) (w : World) (url id : string) (d : UploadedDocument)
    (buf : bytes) :
  File.filename f = multer_filename originalname t ->
  file up = Some f ->
  storage w !! File.filename f = Some buf ->
  fst (upload_pdf up w) = ok (BUpload false url id d) ->
  pdfId sreq = Some id ->
  let w' := snd (upload_pdf up w) in
  id +:+ ".pdf" = File.filename f
  /\ url = "/storage/" +:+ id +:+ ".pdf"
  /\ storage w' !! (id +:+ ".pdf") = Some buf
  /\ (missing (body_pdfHash up) = true -> u_pdfHash d = sha256Hex buf)
  /\ forall surl before after,
       fst (sign_pdf_multi sreq now w') = ok (BSigned surl before after) ->
       before = sha256Hex buf.
Proof.
  intros Hname Hf Hbuf Hup Hid w'.
  destruct (upload_created up w f url id d Hf Hup) as (-> & -> & Hh & Hw).
  assert (Hround : strip_pdf (File.filename f) +:+ ".pdf" = File.filename f).
  { rewrite Hname. apply multer_filename_round_trip. }
  assert (Hst : storage w' !! (strip_pdf (File.filename f) +:+ ".pdf") = Some buf).
  { rewrite Hround. subst w'. rewrite Hw. exact Hbuf. }
  split; [exact Hround|]. split; [now rewrite Hround|].
  split; [exact Hst|]. split.
  - intros Hm. unfold effective_hash in Hh. rewrite Hm, Hbuf in Hh.
    destruct (missing (Some (sha256Hex buf))); [discriminate|]. now injection Hh.
  - intros surl before after Hs.
    destruct (sign_pdf_multi_ok_inv sreq now w' surl before after Hs)
      as (id' & sig & its & orig & out & Hid' & _ & _ & _ & _ & _ & Ho & _ & _ & -> & _).
    rewrite Hid in Hid'. injection Hid' as <-.
    rewrite Hst in Ho. now injection Ho as <-.
Qed.

Lemma uploaded_pdf_can_be_signed_witness :
  let f := File.mk "my-scan-12.pdf" "my scan.pdf" 4 in
  let up := {| file := Some f; body_pdfHash := None |} in
  let w := {| storage := {[ "my-scan-12.pdf" := scan ]}; uploads := []; audits := [] |} in
  let d := {| u_pdfId := "my-scan-12"; u_pdfPath := "/storage/my-scan-12.pdf";
              u_pdfHash := sha256Hex scan; u_originalFilename := "my scan.pdf";
              u_size := 4 |} in
  (File.filename f = multer_filename (Some "my scan.pdf") 12
   /\ storage w !! File.filename f = Some scan
   /\ fst (upload_pdf up w) = ok (BUpload false "/storage/my-scan-12.pdf" "my-scan-12" d))
  /\ storage (snd (upload_pdf up w)) !! ("my-scan-12" +:+ ".pdf") = Some scan
  /\ forall surl before after,
       fst (sign_pdf_multi (as_multi "my-scan-12" "data:image/png;base64,200x100"
                              (VNum (ofZ 0)) box50) 13 (snd (upload_pdf up w)))
       = ok (BSigned surl before after) ->
       before = sha256Hex scan.
Proof.
  intros f up w d.
  destruct (uploaded_pdf_can_be_signed (lib := Toy.lib) (Some "my scan.pdf") 12 13 f up
              (as_multi "my-scan-12" "data:image/png;base64,200x100" (VNum (ofZ 0)) box50)
              w "/storage/my-scan-12.pdf" "my-scan-12" d scan
              eq_refl eq_refl eq_refl eq_refl eq_refl)
    as (_ & _ & H3 & _ & H5).
  split; [repeat split|]. split; [exact H3|exact H5].
Defined.

(** ** [fix-paths.js] *)

Lemma separator_free_cons (c : ascii) (s : string) :
  separator_free (String c s) = negb (is_separator c) && separator_free s.
Proof. reflexivity. Qed.

Lemma separator_free_exists (s : string) :
  existsb is_separator (list_ascii_of_string s) = negb (separator_free s).
Proof.
  induction s as [|c s IH]; [reflexivity|].
  rewrite separator_free_cons. cbn [list_ascii_of_string existsb]. rewrite IH.
  now destruct (is_separator c).
Qed.

(** A name without separators is its own last segment. *)
Lemma last_segment_name (s : string) : separator_free s = true -> last_segment s = s.
Proof.
  destruct s as [|c s]; [reflexivity|].
  rewrite separator_free_cons, andb_true_iff. intros [H1 H2].
  cbn [last_segment]. rewrite separator_free_exists, H2.
  now destruct (is_separator c).
Qed.

Lemma last_segment_free (p : string) : separator_free (last_segment p) = true.
Proof.
  induction p as [|c p IH]; [reflexivity|].
  cbn [last_segment]. rewrite separator_free_exists.
  destruct (is_separator c) eqn:E; [exact IH|]. cbn [orb].
  destruct (separator_free p) eqn:F; [|exact IH].
  cbn [negb]. now rewrite separator_free_cons, E, F.
Qed.

(** The last segment of [dir/name] is [name]. *)
Lemma last_segment_append (p name : string) (c : ascii) :
  is_separator c = true -> separator_free name = true ->
  last_segment (p +:+ String c name) = name.
Proof.
  intros Hc Hn. induction p as [|a p IH].
  - change (EmptyString +:+ String c name) with (String c name).
    cbn [last_segment]. rewrite Hc. cbn [orb]. now apply last_segment_name.
  - rewrite append_cons. cbn [last_segment].
    rewrite separator_free_exists.
    assert (F : separator_free (p +:+ String c name) = false).
    { unfold separator_free. rewrite all_chars_append, all_chars_cons, Hc.
      cbn [negb andb]. apply andb_false_r. }
    rewrite F, orb_true_r. exact IH.
Qed.

Lemma fix_path_storage (name : string) :
  separator_free name = true -> name <> EmptyString ->
  fix_path ("/storage/" +:+ name) = "/storage/" +:+ name.
Proof.
  intros Hn Hne. unfold fix_path.
  change ("/storage/" +:+ name) with ("/storage" +:+ String "/" name).
  rewrite (last_segment_append "/storage" name "/" eq_refl Hn).
  now destruct name.
Qed.

Lemma fix_path_idempotent (p : string) : fix_path (fix_path p) = fix_path p.
Proof.
  unfold fix_path at 2 3.
  destruct (missing (Some (last_segment p))) eqn:M; [unfold fix_path; now rewrite M|].
  apply fix_path_storage; [apply last_segment_free|].
  intros E. now rewrite E in M.
Qed.

Lemma fix_document_idempotent (d : Document) :
  fix_document (fix_document d) = fix_document d.
Proof.
  unfold fix_document. cbn [d_pdfId d_pageIndex d_pdfPathOriginal d_pdfPathSigned
                            d_beforeHash d_afterHash d_mime].
  now rewrite !fix_path_idempotent.
Qed.

(** A path the script has rewritten does not start with a drive letter. *)
Lemma fix_path_windows (p : string) :
  windows_path (fix_path p) = true ->
  windows_path p = true /\ last_segment p = EmptyString /\ fix_path p = p.
Proof.
  unfold fix_path. destruct (last_segment p) as [|c n] eqn:E; cbn [missing].
  - now intros ->.
  - discriminate.
Qed.

(** X14: running [fix-paths.js] a second time changes nothing; a run keeps
    the number of records and their order; and a path that still starts
    with a drive letter after a run is one that ends in a separator, which
    the script leaves as it is. *)
Theorem fix_paths_idempotent (coll : list Document) :
  fix_paths (fix_paths coll) = fix_paths coll
  /\ length (fix_paths coll) = length coll
  /\ Forall (fun d =>
       (windows_path (d_pdfPathOriginal d) = true ->
        last_segment (d_pdfPathOriginal d) = EmptyString)
       /\ (windows_path (d_pdfPathSigned d) = true ->
           last_segment (d_pdfPathSigned d) = EmptyString)) (fix_paths coll).
Proof.
  unfold fix_paths. split; [|split].
  - rewrite List.map_map. apply List.map_ext. intros d.
    destruct (to_fix d) eqn:T; [|now rewrite T].
    destruct (to_fix (fix_document d)); [apply fix_document_idempotent|reflexivity].
  - apply length_map.
  - apply Forall_map, Forall_forall. intros d _.
    destruct (to_fix d) eqn:T.
    + cbn [fix_document d_pdfPathOriginal d_pdfPathSigned].
      split; intros H; apply fix_path_windows in H as (_ & H & E); now rewrite E.
    + unfold to_fix in T. apply orb_false_iff in T as [T1 T2].
      rewrite T1, T2. split; discriminate.
Qed.

Lemma windows_path_append (dir s : string) :
  windows_path dir = true -> windows_path (dir +:+ s) = true.
Proof.
  destruct dir as [|l [|c r]]; try discriminate.
  destruct c as [[] [] [] [] [] [] [] []]; try discriminate.
  destruct r as [|b r]; try discriminate.
  destruct b as [[] [] [] [] [] [] [] []]; try discriminate.
  rewrite !append_cons. exact (fun H => H).
Qed.

(** X15: [signPdfHandler] records the paths of the two files on disk,
    [/api/sign-pdf] their public paths under [/storage/].  When the storage
    directory is a Windows path and the [pdfId] has no separator,
    [fix-paths.js] turns the record of the controller into the record
    [/api/sign-pdf] makes for the same request. *)
Theorem fix_paths_repairs_controller_record {lib : PdfLib} (p : string) (c : ascii)
    (blocking : bool) (req : Sign.t) (now : Z) (w : World)
    (id url before after : string) :
  let dir := p +:+ String c EmptyString in
  is_separator c = true -> windows_path dir = true ->
  Sign.pdfId req = Some id -> separator_free id = true ->
  fst (sign_pdf req now w) = ok (BSigned url before after) ->
  exists batch : list Document,
    audits (snd (signPdfHandler dir blocking None req now w)) = audits w ++ [batch]
    /\ Forall (fun d => to_fix d = true) batch
    /\ audits (snd (sign_pdf req now w)) = audits w ++ [fix_paths batch].
Proof.
  intros dir Hc Hw Hid Hfree H.
  destruct (sign_pdf_fields req now w) as [(id' & sig & pg & b & -> & Hne & Hsig & Hp)|[E _]];
    [|rewrite E in H; discriminate].
  cbn [Sign.pdfId] in Hid. injection Hid as ->.
  rewrite (sign_pdf_present id sig pg b now w Hne Hsig Hp) in H |- *.
  rewrite (signPdfHandler_present dir blocking None id sig pg b now w Hne Hsig Hp).
  destruct (storage w !! (id +:+ ".pdf")) as [orig|]; [|discriminate].
  rewrite sign_one_open_page in H |- *.
  destruct (open_page orig sig pg) as [[[d img] [pg'|]]|msg]; cbn [mbind outcome_bind] in H |- *;
    try discriminate.
  destruct (_ ← drawImage d pg' img _; save _) as [out|msg]; [|discriminate].
  cbv zeta.
  assert (Hsame : snd (if blocking
             then (ok (BSigned ("/storage/" +:+ id +:+ "-signed-" +:+ pretty now +:+ ".pdf")
                         (sha256Hex orig) (sha256Hex out)),
                   {| storage := <[id +:+ "-signed-" +:+ pretty now +:+ ".pdf" := out]> (storage w);
                      uploads := uploads w;
                      audits := audits w ++
                        [[docRecord id pg (dir +:+ id +:+ ".pdf")
                            (dir +:+ id +:+ "-signed-" +:+ pretty now +:+ ".pdf")
                            (sha256Hex orig) (sha256Hex out) sig]] |})
             else (ok (BSigned ("/storage/" +:+ id +:+ "-signed-" +:+ pretty now +:+ ".pdf")
                         (sha256Hex orig) (sha256Hex out)),
                   {| storage := <[id +:+ "-signed-" +:+ pretty now +:+ ".pdf" := out]> (storage w);
                      uploads := uploads w;
                      audits := audits w ++
                        [[docRecord id pg (dir +:+ id +:+ ".pdf")
                            (dir +:+ id +:+ "-signed-" +:+ pretty now +:+ ".pdf")
                            (sha256Hex orig) (sha256Hex out) sig]] |}))
           = {| storage := <[id +:+ "-signed-" +:+ pretty now +:+ ".pdf" := out]> (storage w);
                uploads := uploads w;
                audits := audits w ++
                  [[docRecord id pg (dir +:+ id +:+ ".pdf")
                      (dir +:+ id +:+ "-signed-" +:+ pretty now +:+ ".pdf")
                      (sha256Hex orig) (sha256Hex out) sig]] |})
    by now destruct blocking.
  rewrite Hsame. cbn [snd audits]. eexists. split; [reflexivity|].
  assert (Hfix : forall name, separator_free name = true -> name <> EmptyString ->
            fix_path (dir +:+ name) = "/storage/" +:+ name).
  { intros name Hn Hne'. unfold fix_path, dir. rewrite append_assoc.
    change (String c EmptyString +:+ name) with (String c name).
    rewrite (last_segment_append p name c Hc Hn). now destruct name. }
  assert (Hdash : forall rest, separator_free rest = true ->
            separator_free (id +:+ rest) = true).
  { intros rest Hr. unfold separator_free in *. now rewrite all_chars_append, Hfree, Hr. }
  assert (Hnonempty : forall rest, rest <> EmptyString -> id +:+ rest <> EmptyString).
  { intros rest Hr E. apply (f_equal String.length) in E.
    rewrite append_length in E. destruct rest; [contradiction|]. cbn in E. lia. }
  split.
  - constructor; [|constructor]. unfold to_fix, docRecord. cbn [d_pdfPathOriginal].
    now rewrite (windows_path_append dir _ Hw).
  - unfold fix_paths. cbn [List.map]. unfold to_fix, docRecord at 2.
    cbn [d_pdfPathOriginal d_pdfPathSigned].
    rewrite (windows_path_append dir _ Hw). cbn [orb].
    unfold fix_document, docRecord.
    cbn [d_pdfId d_pageIndex d_pdfPathOriginal d_pdfPathSigned d_beforeHash d_afterHash d_mime].
    rewrite (Hfix (id +:+ ".pdf")), (Hfix (id +:+ "-signed-" +:+ pretty now +:+ ".pdf"));
      first [reflexivity | apply Hnonempty; discriminate | apply Hdash | idtac].
    + unfold separator_free. rewrite !all_chars_append, !andb_true_iff.
      split; [reflexivity|]. split; [|reflexivity].
      apply pretty_Z_chars; [|reflexivity].
      intros n. apply name_char_not_separator, digit_name_char.
    + reflexivity.
Qed.

Lemma fix_paths_repairs_controller_record_witness :
  let req := Sign.mk (Some "contract") (VNum (ofZ 0)) (Some box50)
               (Some "data:image/png;base64,200x100") in
  let dir := "C:\srv\storage" +:+ String "\" EmptyString in
  (windows_path dir = true
   /\ separator_free "contract" = true
   /\ fst (sign_pdf req 5 world)
      = ok (BSigned "/storage/contract-signed-5.pdf"
              (sha256Hex [Byte.x25]) (sha256Hex [Byte.x01])))
  /\ exists batch : list Document,
       audits (snd (signPdfHandler dir true None req 5 world)) = [batch]
       /\ audits (snd (sign_pdf req 5 world)) = [fix_paths batch].
Proof.
  intros req dir.
  destruct (fix_paths_repairs_controller_record (lib := Toy.lib) "C:\srv\storage" "\"
              true req 5 world "contract" _ _ _ eq_refl eq_refl eq_refl eq_refl eq_refl)
    as (batch & H1 & _ & H3).
  split; [repeat split|]. exists batch. split; [exact H1|exact H3].
Defined.

(** * Properties of the editor *)

Import Editor.

(** ** Boxes and selection *)

Lemma elem_of_ids (id : string) (bs : list Box.t) :
  id ∈ List.map Box.id bs <-> exists b, In b bs /\ Box.id b = id.
Proof.
  rewrite list_elem_of_In, in_map_iff. split; intros (b & H1 & H2); exists b; tauto.
Qed.

Lemma patched_id (s : State) (patch : Patch.t) (b : Box.t) :
  Box.id (patched s patch b) = Box.id b.
Proof.
  unfold patched.
  destruct (Patch.left patch), (Patch.top patch), (Patch.width patch), (Patch.height patch);
    reflexivity.
Qed.

(** [updateBox] changes no [id]. *)
Lemma updateBox_ids (id : string) (patch : Patch.t) (s : State) :
  List.map Box.id (boxes (updateBox id patch s)) = List.map Box.id (boxes s).
Proof.
  unfold updateBox. cbn [boxes with_boxes]. rewrite List.map_map.
  apply List.map_ext. intros b. destruct (String.eqb _ _); [apply patched_id|reflexivity].
Qed.

Lemma removeBox_ids (id id' : string) (s : State) :
  id' ∈ List.map Box.id (boxes (removeBox id s))
  <-> id' ∈ List.map Box.id (boxes s) /\ id' <> id.
Proof.
  unfold removeBox. cbn [boxes with_boxes with_selection]. rewrite !elem_of_ids. split.
  - intros (b & Hb & <-). apply filter_In in Hb as [Hb Hne].
    split; [now exists b|]. intros E. rewrite E, String.eqb_refl in Hne. discriminate.
  - intros [(b & Hb & <-) Hne]. exists b. split; [|reflexivity].
    apply filter_In. split; [exact Hb|].
    destruct (String.eqb (Box.id b) id) eqn:E; [|reflexivity].
    apply String.eqb_eq in E. contradiction.
Qed.

(** An action the page offers keeps the selection among the boxes. *)
Lemma run_keeps_selection (a : action) (s : State) :
  offered a s ->
  (forall id, id ∈ selectedIds s -> id ∈ List.map Box.id (boxes s)) ->
  forall id, id ∈ selectedIds (run a s) -> id ∈ List.map Box.id (boxes (run a s)).
Proof.
  intros Ho Hinv id. destruct a as [now|id0 patch|id0|id0|page| |]; cbn [run offered] in *.
  - unfold addBox. cbn [boxes selectedIds with_boxes]. intros H.
    rewrite List.map_app. apply elem_of_app. left. now apply Hinv.
  - rewrite updateBox_ids. unfold updateBox. cbn [selectedIds with_boxes]. apply Hinv.
  - rewrite removeBox_ids. unfold removeBox. cbn [selectedIds with_boxes with_selection].
    rewrite elem_of_difference, elem_of_singleton. intros [H1 H2]. split; [now apply Hinv|exact H2].
  - unfold toggleSelect. cbn [boxes selectedIds with_selection].
    destruct (decide (id0 ∈ selectedIds s)).
    + rewrite elem_of_difference. intros [H _]. now apply Hinv.
    + rewrite elem_of_union, elem_of_singleton. intros [H| ->]; [now apply Hinv|exact Ho].
  - unfold selectAllOnPage. cbn [boxes selectedIds with_selection].
    rewrite elem_of_union, elem_of_list_to_set. intros [H|H]; [now apply Hinv|].
    apply elem_of_ids in H as (b & Hb & <-). apply filter_In in Hb as [Hb _].
    apply elem_of_ids. now exists b.
  - unfold selectAll. cbn [boxes selectedIds with_selection].
    now rewrite elem_of_list_to_set.
  - unfold clearSelection. cbn [selectedIds with_selection]. now rewrite elem_of_empty.
Qed.

(** X16: whatever the user does with the buttons and check boxes of the
    page, every selected [id] is the [id] of a box; so [signSelected] never
    reports [Selected boxes not found]. *)
Theorem selection_names_boxes (s0 s : State) (now : Z) :
  (forall id, id ∈ selectedIds s0 -> id ∈ List.map Box.id (boxes s0)) ->
  reachable s0 s ->
  (forall id, id ∈ selectedIds s -> id ∈ List.map Box.id (boxes s))
  /\ signSelected now s <> Alert "Selected boxes not found.".
Proof.
  intros H0 Hr.
  assert (Hinv : forall id, id ∈ selectedIds s -> id ∈ List.map Box.id (boxes s)).
  { induction Hr as [|a s' Hr IH Ho]; [exact H0|]. now apply run_keeps_selection. }
  split; [exact Hinv|].
  unfold signSelected. destruct (missing (signature s)); [discriminate|].
  destruct (decide (selectedIds s = ∅)) as [|Hne]; [discriminate|].
  apply set_choose_L in Hne as [id Hid].
  pose proof (Hinv id Hid) as Hb. apply elem_of_ids in Hb as (b & Hb & <-).
  assert (Hin : In b (List.filter (fun b => bool_decide (Box.id b ∈ selectedIds s)) (boxes s))).
  { apply filter_In. split; [exact Hb|]. now apply bool_decide_eq_true. }
  destruct (List.filter _ (boxes s)) as [|b' l]; [destruct Hin|].
  unfold sign_boxes. destruct (localPdf s); [discriminate|].
  destruct (missing (pdfIdState s)); discriminate.
Qed.

Lemma selection_names_boxes_witness :
  let s := run (ToggleSelect "5") (run (AddBox 5) (initial (ofZ 800))) in
  reachable (initial (ofZ 800)) s
  /\ (forall id, id ∈ selectedIds s -> id ∈ List.map Box.id (boxes s))
  /\ signSelected 6 s <> Alert "Selected boxes not found.".
Proof.
  intros s.
  assert (Hr : reachable (initial (ofZ 800)) s).
  { apply reach_step; [apply reach_step; [apply reach_refl|exact I]|].
    apply list_elem_of_In. left. reflexivity. }
  assert (H0 : forall id, id ∈ selectedIds (initial (ofZ 800)) ->
                 id ∈ List.map Box.id (boxes (initial (ofZ 800)))).
  { intros id H. cbn in H. now apply elem_of_empty in H. }
  split; [exact Hr|].
  exact (selection_names_boxes (initial (ofZ 800)) s 6 H0 Hr).
Defined.

(** The box [addBox] makes does not depend on the boxes there are. *)
Lemma new_box_with_boxes (now : Z) (bs : list Box.t) (s : State) :
  new_box now (with_boxes bs s) = new_box now s.
Proof. reflexivity. Qed.

(** X17: the [id] of a box is the time of its creation in milliseconds.
    Two boxes added within the same millisecond are equal, [id] included,
    and one click on Delete removes both; a Delete for another [id] keeps
    both. *)
Theorem same_millisecond_boxes_share_id (s : State) (now : Z) :
  let s2 := addBox now (addBox now s) in
  boxes s2 = boxes s ++ [new_box now s; new_box now s]
  /\ boxes (removeBox (pretty now) s2) = boxes (removeBox (pretty now) s)
  /\ forall t : Z, t <> now ->
       boxes (removeBox (pretty t) s2)
       = boxes (removeBox (pretty t) s) ++ [new_box now s; new_box now s].
Proof.
  cbv zeta. unfold addBox, removeBox. cbn [boxes with_boxes with_selection].
  rewrite new_box_with_boxes, <- app_assoc. cbn [app].
  split; [reflexivity|]. split.
  - rewrite List.filter_app. cbn [List.filter new_box Box.id].
    rewrite String.eqb_refl. cbn [negb]. apply app_nil_r.
  - intros t Ht. rewrite List.filter_app. cbn [List.filter new_box Box.id].
    assert (E : String.eqb (pretty now) (pretty t) = false).
    { apply String.eqb_neq. intros E. apply (inj pretty) in E. congruence. }
    rewrite E. reflexivity.
Qed.

Lemma NoDup_filter_ids (f : Box.t -> bool) (bs : list Box.t) :
  NoDup (List.map Box.id bs) -> NoDup (List.map Box.id (List.filter f bs)).
Proof.
  induction bs as [|b bs IH]; [trivial|].
  cbn [List.map List.filter]. rewrite NoDup_cons. intros [Hb Hbs].
  destruct (f b); [|now apply IH].
  cbn [List.map]. apply NoDup_cons. split; [|now apply IH].
  intros (b' & Hin & E)%elem_of_ids. apply filter_In in Hin as [Hin _].
  apply Hb, elem_of_ids. now exists b'.
Qed.

Lemma filter_out_one (id : string) (bs : list Box.t) :
  NoDup (List.map Box.id bs) -> id ∈ List.map Box.id bs ->
  S (length (List.filter (fun b => negb (String.eqb (Box.id b) id)) bs)) = length bs.
Proof.
  induction bs as [|b bs IH]; cbn [List.map List.filter length].
  - intros _ H. now apply elem_of_nil in H.
  - rewrite NoDup_cons, elem_of_cons. intros [Hb Hbs] Hin.
    destruct (String.eqb (Box.id b) id) eqn:E; cbn [negb length].
    + apply String.eqb_eq in E. subst id. f_equal.
      rewrite forallb_filter_id; [reflexivity|].
      apply forallb_forall. intros b' Hb'.
      destruct (String.eqb (Box.id b') (Box.id b)) eqn:E'; [|reflexivity].
      apply String.eqb_eq in E'. exfalso. apply Hb, elem_of_ids. now exists b'.
    + apply String.eqb_neq in E. f_equal. apply IH; [exact Hbs|].
      destruct Hin as [->|Hin]; [contradiction|exact Hin].
Qed.

(** X18: as long as no two boxes are added within the same millisecond, the
    boxes keep different [id]s through every action, and Delete removes
    exactly the box it was clicked on. *)
Theorem unique_ids_kept (a : action) (s : State) :
  NoDup (List.map Box.id (boxes s)) ->
  (forall now, a = AddBox now -> pretty now ∉ List.map Box.id (boxes s)) ->
  NoDup (List.map Box.id (boxes (run a s)))
  /\ forall id, a = RemoveBox id -> id ∈ List.map Box.id (boxes s) ->
       S (length (boxes (run a s))) = length (boxes s)
       /\ id ∉ List.map Box.id (boxes (run a s)).
Proof.
  intros Hnd Hfresh. split.
  - destruct a as [now|id0 patch|id0|id0|page| |]; cbn [run]; try exact Hnd.
    + unfold addBox. cbn [boxes with_boxes]. rewrite List.map_app.
      apply NoDup_app. split; [exact Hnd|]. split.
      * intros id Hin Hnew. cbn in Hnew. apply list_elem_of_singleton in Hnew. subst id.
        now apply (Hfresh now).
      * cbn. apply NoDup_singleton.
    + now rewrite updateBox_ids.
    + unfold removeBox. cbn [boxes with_boxes with_selection]. now apply NoDup_filter_ids.
  - intros id -> Hin. cbn [run]. split.
    + unfold removeBox. cbn [boxes with_boxes with_selection]. now apply filter_out_one.
    + rewrite removeBox_ids. tauto.
Qed.

Lemma unique_ids_kept_witness :
  let s := run (AddBox 5) (initial (ofZ 800)) in
  NoDup (List.map Box.id (boxes s))
  /\ NoDup (List.map Box.id (boxes (run (AddBox 6) s)))
  /\ NoDup (List.map Box.id (boxes (run (RemoveBox "5") s))).
Proof.
  intros s.
  assert (Hnd : NoDup (List.map Box.id (boxes s))) by (cbn; apply NoDup_singleton).
  split; [exact Hnd|]. split.
  - apply (unique_ids_kept (AddBox 6) s Hnd).
    intros now [= <-] Hin. apply list_elem_of_In in Hin. cbn in Hin.
    destruct Hin as [E|[]]. discriminate E.
  - apply (unique_ids_kept (RemoveBox "5") s Hnd). intros now E. discriminate E.
Defined.

(** ** What the editor sends *)

Lemma num_or_cases (a b : num) :
  (truthy (VNum a) = true /\ num_or a b = a) \/ (truthy (VNum a) = false /\ num_or a b = b).
Proof.
  unfold num_or, js_or. destruct (truthy (VNum a)); [left|right]; now split.
Qed.

Lemma qc_sub_1 (n : Z) : qc n 1 - qc 1 1 = qc (n - 1) 1.
Proof.
  apply Qc_is_canon. qc_unfold. unfold Qeq. cbn. lia.
Qed.

Lemma Math_max_0_Fin (q : Qc) :
  Math_max (ofZ 0) (Fin q) = Fin (if Qc_ltb 0 q then q else 0).
Proof.
  unfold Math_max, ofZ, ltb. change (qc 0 1) with 0. now destruct (Qc_ltb 0 q).
Qed.

(** X19: the page index [exportCoords] hands to the server is never NaN and
    never negative.  For a box on page [n], counted from 1, it is [n - 1];
    for a box whose page number is 0 or NaN it is 0, the first page. *)
Theorem exported_page_index (s : State) (b : Box.t) :
  let p := e_pageIndex (exportCoords s b) in
  (p = PInf \/ exists q : Qc, p = Fin q /\ 0 <= q)
  /\ (forall n : Z, (1 <= n)%Z -> Box.pageIndex b = ofZ n -> p = ofZ (n - 1))
  /\ (truthy (VNum (Box.pageIndex b)) = false -> p = ofZ 0).
Proof.
  cbv zeta. unfold exportCoords, getPageOffsetAndSize. cbn [e_pageIndex].
  assert (Z0 : Math_max (ofZ 0) (sub (ofZ 1) (ofZ 1)) = ofZ 0)
    by (apply num_eqb_eq; now vm_compute).
  split; [|split].
  - destruct (num_or_cases (Box.pageIndex b) (ofZ 1)) as [[T ->]|[_ ->]].
    + destruct (Box.pageIndex b) as [q| | |]; cbn [sub neg add ofZ].
      * right. rewrite Math_max_0_Fin. eexists. split; [reflexivity|].
        destruct (Qc_ltb 0 _) eqn:E; [apply Qc_ltb_lt in E; now apply Qclt_le_weak|].
        apply Qcle_refl.
      * now left.
      * right. exists 0. split; [reflexivity|apply Qcle_refl].
      * discriminate T.
    + right. exists 0. rewrite Z0. split; [reflexivity|apply Qcle_refl].
  - intros n Hn ->.
    assert (T : num_or (ofZ n) (ofZ 1) = ofZ n).
    { destruct (num_or_cases (ofZ n) (ofZ 1)) as [[_ E]|[E _]]; [exact E|].
      unfold truthy, ofZ in E. apply negb_false_iff, Qc_eqb_eq in E.
      change 0 with (qc 0 1) in E. apply (f_equal round_half_up) in E.
      rewrite !round_half_up_Z in E. lia. }
    rewrite T. cbn [sub neg add ofZ].
    assert (E : qc n 1 + - qc 1 1 = qc (n - 1) 1) by apply qc_sub_1.
    rewrite E, Math_max_0_Fin.
    destruct (Qc_ltb 0 (qc (n - 1) 1)) eqn:L; [reflexivity|].
    apply Qc_ltb_ge in L. unfold ofZ. apply f_equal, Qc_is_canon.
    qc_unfold. unfold Qle in L. unfold Qeq. cbn in *. lia.
  - intros F. destruct (num_or_cases (Box.pageIndex b) (ofZ 1)) as [[E _]|[_ ->]];
      [congruence|exact Z0].
Qed.

Lemma exported_page_index_witness :
  let b := new_box 5 (initial (ofZ 800)) in
  Box.pageIndex b = ofZ 1
  /\ e_pageIndex (exportCoords (initial (ofZ 800)) b) = ofZ (1 - 1).
Proof.
  intros b. split; [reflexivity|].
  destruct (exported_page_index (initial (ofZ 800)) b) as (_ & H & _).
  apply (H 1%Z); [lia|reflexivity].
Defined.

Lemma sign_boxes_post (tag : string) (now : Z) (s : State) (sig : string)
    (chosen : list Box.t) (id sig' : string) (items : list Exported) :
  sign_boxes tag now s sig chosen = Post id items sig' ->
  id <> EmptyString /\ pdfIdState s = Some id /\ sig' = sig
  /\ items = List.map (exportCoords s) chosen /\ localPdf s = None.
Proof.
  unfold sign_boxes. destruct (localPdf s); [discriminate|].
  destruct (pdfIdState s) as [[|c i]|]; cbn [missing]; try discriminate.
  intros [= <- <- <-]. repeat split. discriminate.
Qed.

(** The request of the editor, once sent, in terms of the state. *)
Lemma editor_post (s : State) (now : Z) (id sig : string) (items : list Exported) :
  signSelected now s = Post id items sig \/ signAllPages now s = Post id items sig ->
  id <> EmptyString /\ sig <> EmptyString
  /\ pdfIdState s = Some id /\ signature s = Some sig /\ localPdf s = None
  /\ exists chosen : list Box.t,
       chosen <> [] /\ incl chosen (boxes s)
       /\ items = List.map (exportCoords s) chosen.
Proof.
  intros [H|H].
  - unfold signSelected in H.
    destruct (signature s) as [[|c sg]|]; cbn [missing] in H; try discriminate.
    destruct (decide (selectedIds s = ∅)); [discriminate|].
    destruct (List.filter _ (boxes s)) as [|b l] eqn:F; [discriminate|].
    apply sign_boxes_post in H as (H1 & H2 & -> & H4 & H5).
    repeat split; try assumption; try discriminate.
    exists (b :: l). split; [discriminate|]. split; [|exact H4].
    rewrite <- F. intros x Hx. now apply filter_In in Hx.
  - unfold signAllPages in H.
    destruct (signature s) as [[|c sg]|]; cbn [missing] in H; try discriminate.
    destruct (boxes s) as [|b l] eqn:F; [discriminate|].
    apply sign_boxes_post in H as (H1 & H2 & -> & H4 & H5).
    repeat split; try assumption; try discriminate.
    exists (b :: l). split; [discriminate|]. split; [apply incl_refl|exact H4].
Qed.

(** X20: a request the editor posts to [/api/sign-pdf-multi] is never
    answered with [missing]: it carries the [pdfId] of the state, the
    signature and at least one item; and every item has its [pdfBox] and a
    [pageIndex], so the loop of the server fails only where pdf-lib does. *)
Theorem editor_request_is_well_formed {lib : PdfLib} (s : State) (now : Z)
    (id sig : string) (items : list Exported) :
  signSelected now s = Post id items sig \/ signAllPages now s = Post id items sig ->
  let req := payload id items sig in
  (forall (t : Z) (w : World),
     fst (sign_pdf_multi req t w) <> {| status := 400; json := BError "missing" |})
  /\ (exists its, Server.items req = Some its /\ length its = length items
        /\ Forall (fun it => is_Some (Item.pdfBox it)
                             /\ Item.pageIndex it <> VUndefined) its)
  /\ forall img : image,
       (forall d i, exists p, getPage d i = Ret p) ->
       (forall d p r, exists d', drawImage d p img r = Ret d') ->
       forall d, exists d', draw_items img (List.map to_item items) d = Ret d'.
Proof.
  intros H req.
  destruct (editor_post s now id sig items H)
    as (Hid & Hsig & _ & _ & _ & chosen & Hne & _ & ->).
  assert (Hall : Forall (fun it => is_Some (Item.pdfBox it)
                                   /\ Item.pageIndex it <> VUndefined)
                   (List.map to_item (List.map (exportCoords s) chosen))).
  { apply Forall_map, Forall_map, Forall_forall. intros b _. split; [now eexists|].
    unfold to_item. cbn [Item.pageIndex]. now destruct (e_pageIndex _). }
  split; [|split].
  - intros t w. unfold sign_pdf_multi, req, payload.
    cbn [Server.pdfId Server.items Server.signatureBase64].
    destruct id as [|c i]; [contradiction|]. destruct sig as [|c' sg]; [contradiction|].
    destruct chosen as [|b l]; [contradiction|]. cbn [List.map].
    cbv zeta. destruct (storage w !! _); [|cbn [fst]; intros [= E]; discriminate E].
    destruct (signed_bytes _ _ _); cbn [fst]; discriminate.
  - eexists. split; [reflexivity|]. split; [apply length_map|exact Hall].
  - intros img Hg Hd. apply draw_items_total; [exact Hg|exact Hd|].
    eapply Forall_impl; [exact Hall|]. now intros it [Hb _].
Qed.

Lemma editor_request_is_well_formed_witness :
  let s0 := run (ToggleSelect "5") (run (AddBox 5) (initial (ofZ 800))) in
  let s := {| boxes := boxes s0; selectedIds := selectedIds s0;
              renderedSizes := renderedSizes s0; canvasOffsets := canvasOffsets s0;
              pageSizePointsMap := pageSizePointsMap s0; viewerWidth := viewerWidth s0;
              activePage := activePage s0;
              signature := Some "data:image/png;base64,200x100";
              pdfIdState := Some "contract"; localPdf := None; localFileName := None;
              pdfUrlState := None |} in
  let items := List.map (exportCoords s) (boxes s) in
  signAllPages 6 s = Post "contract" items "data:image/png;base64,200x100"
  /\ fst (sign_pdf_multi
            (payload "contract" items "data:image/png;base64,200x100") 7 world)
     <> {| status := 400; json := BError "missing" |}.
Proof.
  intros s0 s items.
  assert (H : signAllPages 6 s = Post "contract" items "data:image/png;base64,200x100")
    by reflexivity.
  split; [exact H|].
  destruct (editor_request_is_well_formed (lib := Toy.lib) s 6 "contract"
              "data:image/png;base64,200x100" items (or_intror H)) as [Hm _].
  exact (Hm 7%Z world).
Defined.

(** ** Where a new box is put *)

Lemma mul_ofZ_frac (a n : Z) (d : positive) :
  mul (ofZ a) (Fin (qc n d)) = Fin (qc (a * n) d).
Proof.
  cbn [mul ofZ]. f_equal. apply Qc_is_canon. qc_unfold.
  unfold Qeq. cbn [Qnum Qden Qmult]. reflexivity.
Qed.

(** Rounding a fraction to the closest integer, in integer arithmetic. *)
Lemma round_half_up_frac (n : Z) (d : positive) :
  round_half_up (qc n d) = ((2 * n + Zpos d) / (2 * Zpos d))%Z.
Proof.
  unfold round_half_up.
  assert (E : (qc n d + qc 1 2 == (n * 2 + 1 * Zpos d) # (d * 2))%Q).
  { qc_unfold. reflexivity. }
  rewrite E. cbn [Qfloor]. f_equal; lia.
Qed.

Lemma Math_round_frac (a n : Z) (d : positive) :
  Math_round (mul (ofZ a) (Fin (qc n d)))
  = ofZ ((2 * (a * n) + Zpos d) / (2 * Zpos d)).
Proof. rewrite mul_ofZ_frac. cbn [Math_round]. now rewrite round_half_up_frac. Qed.

Lemma ltb_ofZ (a b : Z) : ltb (ofZ a) (ofZ b) = (a <? b)%Z.
Proof.
  cbn [ltb ofZ]. destruct (Z.ltb_spec a b) as [H|H].
  - apply Qc_ltb_lt. qc_unfold. unfold Qlt. cbn. lia.
  - apply Qc_ltb_ge. qc_unfold. unfold Qle. cbn. lia.
Qed.

Lemma Math_max_ofZ (a b : Z) : Math_max (ofZ a) (ofZ b) = ofZ (Z.max a b).
Proof.
  unfold Math_max. change (ofZ a) with (Fin (qc a 1)) at 1.
  change (ofZ b) with (Fin (qc b 1)) at 1. cbv iota.
  change (Fin (qc a 1)) with (ofZ a). change (Fin (qc b 1)) with (ofZ b).
  rewrite ltb_ofZ. destruct (Z.ltb_spec a b); f_equal; lia.
Qed.

Lemma Math_min_ofZ (a b : Z) : Math_min (ofZ a) (ofZ b) = ofZ (Z.min a b).
Proof.
  unfold Math_min. change (ofZ a) with (Fin (qc a 1)) at 1.
  change (ofZ b) with (Fin (qc b 1)) at 1. cbv iota.
  change (Fin (qc a 1)) with (ofZ a). change (Fin (qc b 1)) with (ofZ b).
  rewrite ltb_ofZ. destruct (Z.ltb_spec b a); f_equal; lia.
Qed.



Lemma Math_floor_Fin (q : Qc) : Math_floor (Fin q) = ofZ (Qfloor q).
Proof. reflexivity. Qed.

(** X22: the width [recompute] gives the page is an integer from 320 to
    1000, whatever width the container or the window reports, unless that
    width is NaN; and the default page area, [viewerWidth] by
    [Math.round(viewerWidth * 1.3)], is then at least as high as wide. *)
Theorem recompute_range (clientWidth : value) (innerWidth : num) :
  Number (js_or clientWidth (VNum innerWidth)) <> NaN ->
  exists n H : Z,
    recompute clientWidth innerWidth = ofZ n
    /\ (320 <= n <= 1000)%Z
    /\ Math_round (mul (ofZ n) (Fin (qc 13 10))) = ofZ H
    /\ (n <= H)%Z.
Proof.
  intros Hn. unfold recompute.
  assert (Hr : exists n : Z,
            Math_max (ofZ 320) (Math_min (ofZ 1000)
              (Math_floor (sub (Number (js_or clientWidth (VNum innerWidth))) (ofZ 40))))
            = ofZ n /\ (320 <= n <= 1000)%Z).
  { destruct (Number (js_or clientWidth (VNum innerWidth))) as [q| | |].
    - cbn [sub neg add ofZ]. rewrite Math_floor_Fin, Math_min_ofZ, Math_max_ofZ.
      eexists. split; [reflexivity|lia].
    - exists 1000%Z. split; [|lia]. apply num_eqb_eq. now vm_compute.
    - exists 320%Z. split; [|lia]. apply num_eqb_eq. now vm_compute.
    - contradiction. }
  destruct Hr as (n & -> & Hrange).
  exists n. eexists. split; [reflexivity|]. split; [exact Hrange|].
  rewrite Math_round_frac. split; [reflexivity|].
  change (2 * 10)%Z with 20%Z. Z.div_mod_to_equations. lia.
Qed.

Lemma recompute_range_witness :
  Number (js_or VUndefined (VNum (ofZ 1280))) <> NaN
  /\ exists n H : Z,
       recompute VUndefined (ofZ 1280) = ofZ n /\ (320 <= n <= 1000)%Z
       /\ Math_round (mul (ofZ n) (Fin (qc 13 10))) = ofZ H /\ (n <= H)%Z.
Proof.
  assert (Hn : Number (js_or VUndefined (VNum (ofZ 1280))) <> NaN) by discriminate.
  split; [exact Hn|].
  exact (recompute_range VUndefined (ofZ 1280) Hn).
Defined.

(** ** Signing in the browser and on the server *)

Lemma json_exact_item (e : Exported) :
  json_exact e = true ->
  to_item e = Item.mk (VNum (e_pageIndex e)) (Some (e_pdfBox e)).
Proof.
  unfold json_exact, to_item, json_box. destruct e as [p [x y w h] f sz].
  cbn [e_pageIndex e_pdfBox PdfBox.x PdfBox.y PdfBox.width PdfBox.height].
  rewrite !andb_true_iff. intros [[[[Hp Hx] Hy] Hw] Hh].
  destruct p, x, y, w, h; try discriminate; reflexivity.
Qed.

(** The loop of the browser is the loop of the server. *)
Lemma burn_items_draw_items {lib : PdfLib} (img : image) (items : list Exported) (d : doc) :
  Forall (fun e => json_exact e = true) items ->
  burn_items img items d = draw_items img (List.map to_item items) d.
Proof.
  intros H. revert d. induction H as [|e items He _ IH]; intros d; [reflexivity|].
  cbn [List.map burn_items draw_items]. rewrite (json_exact_item e He).
  cbn [Item.pageIndex Item.pdfBox destructure].
  destruct (getPage d (VNum (e_pageIndex e))) as [[pg|]|msg]; cbn; [|apply IH|reflexivity].
  destruct (drawImage d pg img _) as [d'|msg]; cbn; [apply IH|reflexivity].
Qed.

(** What the server takes for a PNG, the browser takes for a PNG. *)
Lemma png_for_both (sig : string) :
  isPng sig = true -> includes "image/png" (before_comma sig) = true.
Proof.
  unfold isPng. intros H.
  do 14 (destruct sig as [|? sig]; [discriminate H|];
         cbn [String.prefix] in H;
         destruct (ascii_dec _ _) as [<-|]; [|discriminate H]).
  cbn. now destruct (before_comma sig).
Qed.

Lemma includes_nonempty (t s : string) :
  t <> EmptyString -> includes t s = true -> s <> EmptyString.
Proof. intros Ht H ->. destruct t; [contradiction|discriminate H]. Qed.

(** X23: signing in the browser writes the bytes the server would write.
    For a PDF that starts with [%PDF], a signature data URL with a comma
    and a non-empty base64 part that both sides take for the same kind of
    image, and exported items whose numbers are finite,
    [burnInLocallyMultiple] returns what the [try] block of
    [/api/sign-pdf-multi] produces from the posted items. *)
Theorem local_and_server_signing_agree {lib : PdfLib} (atob : string -> outcome bytes)
    (src : bytes) (sig : string) (items : list Exported) :
  pdf_header src = true ->
  includes "," sig = true -> imgData sig <> EmptyString ->
  isPng sig = true \/ includes "image/png" (before_comma sig) = false ->
  atob (imgData sig) = Ret (base64 (imgData sig)) ->
  Forall (fun e => json_exact e = true) items ->
  burnInLocallyMultiple atob (Some src) items (Some sig)
  = signed_bytes src sig (List.map to_item items).
Proof.
  intros Hh Hc Hb Hpng Ha Hj.
  unfold burnInLocallyMultiple, signed_bytes. rewrite Hh. cbn [negb].
  destruct (load src) as [d|msg]; [|reflexivity]. cbn [mbind outcome_bind].
  assert (Hs : missing (Some sig) = false).
  { pose proof (includes_nonempty "," sig) as H. destruct sig; [|reflexivity].
    exfalso. now apply H. }
  rewrite Hs, Hc. cbn [negb orb].
  assert (Hm : missing (Some (imgData sig)) = false) by now destruct (imgData sig).
  rewrite Hm, Ha. cbn [mbind outcome_bind].
  assert (E : includes "image/png" (before_comma sig) = isPng sig).
  { destruct Hpng as [H|H].
    - now rewrite H, png_for_both.
    - rewrite H. destruct (isPng sig) eqn:P; [|reflexivity].
      now rewrite png_for_both in H. }
  rewrite E.
  destruct (if isPng sig then _ else _) as [[img d']|msg]; [|reflexivity].
  cbn [mbind outcome_bind]. now rewrite burn_items_draw_items.
Qed.

Lemma local_and_server_signing_agree_witness :
  let s := initial (ofZ 800) in
  let items := [exportCoords s (new_box 5 s)] in
  let src := [Byte.x25; Byte.x50; Byte.x44; Byte.x46] in
  let sig := "data:image/png;base64,200x100" in
  (pdf_header src = true /\ includes "," sig = true /\ isPng sig = true
   /\ Forall (fun e => json_exact e = true) items)
  /\ burnInLocallyMultiple (fun t => Ret (base64 t)) (Some src) items (Some sig)
     = signed_bytes src sig (List.map to_item items).
Proof.
  intros s items src sig.
  assert (Hb : imgData sig <> EmptyString) by discriminate.
  assert (Hj : Forall (fun e => json_exact e = true) items).
  { constructor; [now vm_compute|constructor]. }
  split; [repeat split; exact Hj|].
  exact (local_and_server_signing_agree (lib := Toy.lib) (fun t => Ret (base64 t))
           src sig items eq_refl eq_refl Hb (or_introl eq_refl) eq_refl Hj).
Defined.

(** ** The fractions kept with a box *)

Lemma clamp_unit_Fin (q : Qc) : clamp_unit (Fin q) = Fin (clampQ q).
Proof. rewrite <- clamp01_Fin. reflexivity. Qed.

Lemma num_or_pos (q : Qc) (d : num) : 0 < q -> num_or (Fin q) d = Fin q.
Proof.
  intros H. unfold num_or, js_or, truthy.
  destruct (Qc_eqb q 0) eqn:E; [|reflexivity].
  apply Qc_eqb_eq in E. subst q. apply Qclt_not_eq in H. congruence.
Qed.

Lemma num_or_0 (q : Qc) : num_or (Fin q) (ofZ 0) = Fin q.
Proof. apply Number_or0_Fin. Qed.

Lemma sub_ofZ_0 (q : Qc) : sub (Fin q) (ofZ 0) = Fin q.
Proof.
  cbn [sub neg add ofZ]. f_equal. change (qc 0 1) with 0. ring.
Qed.

(** X24: the fractions [updateBox] keeps with a box are the fractions
    [exportCoords] reports for it, before their rounding to six decimals,
    when the page of the box has been measured and its canvas sits at the
    corner of the wrapper. *)
Theorem stored_fractions_are_exported (s : State) (patch : Patch.t) (b : Box.t)
    (l t w h rw rh pw ph : Qc) :
  let b' := patched s patch b in
  patch <> Patch.mk None None None None ->
  truthy (VNum (Box.pageIndex b)) = true ->
  renderedSizes s (Box.pageIndex b) = Some (Fin rw, Fin rh) -> 0 < rw -> 0 < rh ->
  default (ofZ 0, ofZ 0) (canvasOffsets s (Box.pageIndex b)) = (ofZ 0, ofZ 0) ->
  default (ofZ 595, ofZ 842) (pageSizePointsMap s (Box.pageIndex b)) = (Fin pw, Fin ph) ->
  0 < pw -> 0 < ph ->
  Box.left b' = Fin l -> Box.top b' = Fin t ->
  Box.width b' = Fin w -> Box.height b' = Fin h ->
  e_fractions (exportCoords s b')
  = {| Fractions.x_frac := toFixed6 (Box.x_frac b');
       Fractions.y_frac := toFixed6 (Box.y_frac b');
       Fractions.w_frac := toFixed6 (Box.w_frac b');
       Fractions.h_frac := toFixed6 (Box.h_frac b') |}.
Proof.
  intros b' Hch Hpage Hsize Hrw Hrh Hoff Hpts Hpw Hph Hl Ht Hw Hh.
  assert (Hp : Box.pageIndex b' = Box.pageIndex b).
  { subst b'. unfold patched.
    destruct (Patch.left patch), (Patch.top patch), (Patch.width patch),
      (Patch.height patch); reflexivity. }
  assert (Hfr : Box.x_frac b' = Fin (clampQ (l / rw))
                /\ Box.y_frac b' = Fin (clampQ (t / rh))
                /\ Box.w_frac b' = Fin (clampQ (w / rw))
                /\ Box.h_frac b' = Fin (clampQ (h / rh))).
  { subst b'. unfold patched in *. unfold rendered_or_default in *. rewrite Hsize in *.
    cbn [default fst snd id] in *.
    destruct patch as [[?|] [?|] [?|] [?|]];
      cbn [Patch.left Patch.top Patch.width Patch.height] in *;
      try (now contradiction Hch);
      cbn [Box.left Box.top Box.width Box.height Box.x_frac Box.y_frac
           Box.w_frac Box.h_frac default id] in *;
      rewrite ?Hl, ?Ht, ?Hw, ?Hh, !num_or_0, !num_or_pos, !div_Fin_pos,
        !clamp_unit_Fin by assumption;
      repeat split; reflexivity. }
  destruct Hfr as (-> & -> & -> & ->).
  unfold exportCoords, getPageOffsetAndSize, rendered_or_default.
  rewrite Hp.
  assert (Hone : num_or (Box.pageIndex b) (ofZ 1) = Box.pageIndex b).
  { destruct (num_or_cases (Box.pageIndex b) (ofZ 1)) as [[_ E]|[E _]]; [exact E|congruence]. }
  rewrite Hone, Hsize, Hoff, Hpts, Hl, Ht, Hw, Hh.
  cbn [default fst snd id e_fractions].
  assert (H0 : num_or (ofZ 0) (ofZ 0) = ofZ 0) by (apply num_eqb_eq; now vm_compute).
  rewrite H0, !sub_ofZ_0.
  rewrite (mapper_numeric rw rh pw ph Hrw Hrh Hpw Hph). cbn [fractions].
  rewrite !toFixed6_Fin by apply clampQ_range. reflexivity.
Qed.

Lemma stored_fractions_are_exported_witness :
  let s0 := initial (ofZ 800) in
  let s := {| boxes := boxes s0; selectedIds := selectedIds s0;
              renderedSizes := fun _ => Some (ofZ 800, ofZ 1040);
              canvasOffsets := canvasOffsets s0;
              pageSizePointsMap := pageSizePointsMap s0; viewerWidth := viewerWidth s0;
              activePage := activePage s0; signature := signature s0;
              pdfIdState := pdfIdState s0; localPdf := localPdf s0;
              localFileName := localFileName s0; pdfUrlState := pdfUrlState s0 |} in
  let patch := Patch.mk (Some (ofZ 100)) (Some (ofZ 200)) None None in
  let b' := patched s patch (new_box 5 s) in
  (Box.left b' = ofZ 100 /\ Box.top b' = ofZ 200
   /\ Box.width b' = ofZ 240 /\ Box.height b' = ofZ 84)
  /\ e_fractions (exportCoords s b')
     = {| Fractions.x_frac := toFixed6 (Box.x_frac b');
          Fractions.y_frac := toFixed6 (Box.y_frac b');
          Fractions.w_frac := toFixed6 (Box.w_frac b');
          Fractions.h_frac := toFixed6 (Box.h_frac b') |}.
Proof.
  intros s0 s patch b'.
  assert (Hpatch : patch <> Patch.mk None None None None) by discriminate.
  assert (P1 : 0 < qc 800 1) by reflexivity.
  assert (P2 : 0 < qc 1040 1) by reflexivity.
  assert (P3 : 0 < qc 595 1) by reflexivity.
  assert (P4 : 0 < qc 842 1) by reflexivity.
  split; [repeat split|].
  exact (stored_fractions_are_exported s patch (new_box 5 s)
           (qc 100 1) (qc 200 1) (qc 240 1) (qc 84 1)
           (qc 800 1) (qc 1040 1) (qc 595 1) (qc 842 1)
           Hpatch eq_refl eq_refl P1 P2 eq_refl eq_refl P3 P4
           eq_refl eq_refl eq_refl eq_refl).
Defined.

(** ** Uploading from the editor *)

Section UploadFlowFacts.
Context {lib : PdfLib}.
Variable apiBase : string.

(** The upload of bytes whose hash is already recorded. *)
Lemma post_upload_known (originalname : string) (content : bytes) (h : string)
    (now : Z) (w : World) (d : UploadedDocument) :
  h <> EmptyString ->
  storage w !! multer_filename (Some originalname) now = None ->
  findOne h (uploads w) = Some d ->
  post_upload originalname content h now w
  = (ok (BUpload true (u_pdfPath d) (u_pdfId d) d), w).
Proof.
  intros Hh Hfree Hd. unfold post_upload, upload_pdf. cbv zeta.
  cbn [file body_pdfHash uploads storage audits File.filename].
  assert (M : missing (Some h) = false) by now destruct h.
  rewrite !M. change (default EmptyString (Some h)) with h. rewrite Hd.
  f_equal. rewrite delete_insert_eq, delete_id by exact Hfree. now destruct w.
Qed.

(** The upload of bytes whose hash is not recorded yet. *)
Lemma post_upload_new (originalname : string) (content : bytes) (h : string)
    (now : Z) (w : World) :
  h <> EmptyString ->
  findOne h (uploads w) = None ->
  let name := multer_filename (Some originalname) now in
  existsb (fun d => String.eqb (u_pdfId d) (strip_pdf name)) (uploads w) = false ->
  let d := {| u_pdfId := strip_pdf name; u_pdfPath := "/storage/" +:+ name;
              u_pdfHash := h; u_originalFilename := originalname;
              u_size := Z.of_nat (length content) |} in
  post_upload originalname content h now w
  = (ok (BUpload false ("/storage/" +:+ name) (strip_pdf name) d),
     {| storage := <[name := content]> (storage w);
        uploads := uploads w ++ [d]; audits := audits w |}).
Proof.
  intros Hh Hd name Hid d. unfold post_upload, upload_pdf. cbv zeta.
  cbn [file body_pdfHash uploads storage audits File.filename File.originalname File.size].
  assert (M : missing (Some h) = false) by now destruct h.
  rewrite !M. change (default EmptyString (Some h)) with h. rewrite Hd.
  fold name. unfold create. rewrite M, Hid.
  assert (M1 : missing (Some (strip_pdf name)) = false).
  { pose proof (multer_filename_round_trip (Some originalname) now) as R. fold name in R.
    destruct (strip_pdf name) eqn:E; [|reflexivity].
    exfalso. apply (f_equal String.length) in R. unfold name, multer_filename in R.
    rewrite !append_length in R. cbn [String.length] in R. lia. }
  rewrite M1. cbn [orb missing]. reflexivity.
Qed.

End UploadFlowFacts.

(** X25: uploading bytes whose SHA-256 is already recorded never makes a
    second record or a second file.  Whether the user chooses to load the
    existing file or to upload again, the editor ends up on the [pdfId] and
    the [pdfPath] of the recorded upload, with no boxes and no selection,
    and records and storage directory of the server are as before. *)
Theorem upload_again_loads_existing {lib : PdfLib} (apiBase originalname : string)
    (content : bytes) (confirm : bool) (now : Z) (s : State) (w : World)
    (d : UploadedDocument) :
  sha256Hex content <> EmptyString ->
  storage w !! multer_filename (Some originalname) now = None ->
  findOne (sha256Hex content) (uploads w) = Some d ->
  u_pdfId d <> EmptyString ->
  uploadPdfFile apiBase originalname content confirm now s w
  = (loaded (full_url apiBase (u_pdfPath d)) (Some (u_pdfId d)) s, w).
Proof.
  intros Hh Hfree Hd Hid. unfold uploadPdfFile, check_pdf. cbv zeta.
  assert (M : missing (Some (sha256Hex content)) = false)
    by now destruct (sha256Hex content).
  rewrite M. change (default EmptyString (Some (sha256Hex content))) with (sha256Hex content).
  rewrite Hd, (post_upload_known originalname content _ now w d Hh Hfree Hd).
  cbn [json ok].
  assert (M' : missing (Some (u_pdfId d)) = false) by now destruct (u_pdfId d).
  rewrite M'. now destruct confirm.
Qed.

Lemma upload_again_loads_existing_witness :
  let w := {| storage := {[ "scan-1.pdf" := scan ]}; uploads := [scan1]; audits := [] |} in
  (findOne (sha256Hex scan) (uploads w) = Some scan1
   /\ storage w !! multer_filename (Some "my scan.pdf") 12 = None)
  /\ uploadPdfFile "http://localhost:5000" "my scan.pdf" scan false 12
       (initial (ofZ 800)) w
     = (loaded "http://localhost:5000/storage/scan-1.pdf" (Some "scan-1")
          (initial (ofZ 800)), w).
Proof.
  intros w.
  assert (Hh : sha256Hex scan <> EmptyString) by discriminate.
  assert (Hid : u_pdfId scan1 <> EmptyString) by discriminate.
  split; [split; reflexivity|].
  exact (upload_again_loads_existing (lib := Toy.lib) "http://localhost:5000"
           "my scan.pdf" scan false 12 (initial (ofZ 800)) w scan1
           Hh eq_refl eq_refl Hid).
Defined.

(** X26: uploading bytes whose SHA-256 is not recorded yet stores them under
    the name multer gives, records them under that hash and puts the editor
    on the new [pdfId]; [/api/check-pdf] then finds the record, and the file
    [/api/sign-pdf-multi] reads for that [pdfId] holds the uploaded
    bytes. *)
Theorem upload_new_is_recorded {lib : PdfLib} (apiBase originalname : string)
    (content : bytes) (confirm : bool) (now : Z) (s : State) (w : World) :
  sha256Hex content <> EmptyString ->
  findOne (sha256Hex content) (uploads w) = None ->
  let name := multer_filename (Some originalname) now in
  existsb (fun d => String.eqb (u_pdfId d) (strip_pdf name)) (uploads w) = false ->
  let s' := fst (uploadPdfFile apiBase originalname content confirm now s w) in
  let w' := snd (uploadPdfFile apiBase originalname content confirm now s w) in
  exists (id : string) (d : UploadedDocument),
    pdfIdState s' = Some id /\ id <> EmptyString
    /\ pdfUrlState s' = Some (full_url apiBase ("/storage/" +:+ id +:+ ".pdf"))
    /\ boxes s' = [] /\ selectedIds s' = ∅
    /\ uploads w' = uploads w ++ [d]
    /\ u_pdfId d = id /\ u_pdfHash d = sha256Hex content
    /\ storage w' !! (id +:+ ".pdf") = Some content
    /\ check_pdf (Some (sha256Hex content)) w' = (200%nat, CFound (u_pdfPath d) d).
Proof.
  intros Hh Hd name Hid s' w'. subst s' w'. unfold uploadPdfFile, check_pdf. cbv zeta.
  assert (M : missing (Some (sha256Hex content)) = false)
    by now destruct (sha256Hex content).
  rewrite M. change (default EmptyString (Some (sha256Hex content))) with (sha256Hex content).
  rewrite Hd, (post_upload_new originalname content _ now w Hh Hd Hid).
  fold name. cbn [json ok fst snd pdfIdState pdfUrlState boxes selectedIds loaded
                  uploads storage u_pdfId u_pdfHash u_pdfPath].
  pose proof (multer_filename_round_trip (Some originalname) now) as R. fold name in R.
  eexists _, _. split; [reflexivity|]. split.
  { intros E. rewrite E in R. apply (f_equal String.length) in R.
    unfold name, multer_filename in R. rewrite !append_length in R.
    cbn [String.length] in R. lia. }
  split; [now rewrite R|]. split; [reflexivity|]. split; [reflexivity|].
  split; [reflexivity|]. split; [reflexivity|]. split; [reflexivity|].
  split; [rewrite R; apply lookup_insert_eq|].
  rewrite findOne_app_new; [reflexivity|exact Hd|reflexivity].
Qed.

Lemma upload_new_is_recorded_witness :
  let w := {| storage := ∅; uploads := []; audits := [] |} in
  let r := uploadPdfFile "http://localhost:5000" "my scan.pdf" scan true 12
             (initial (ofZ 800)) w in
  exists (id : string) (d : UploadedDocument),
    pdfIdState (fst r) = Some id /\ id <> EmptyString
    /\ pdfUrlState (fst r)
       = Some (full_url "http://localhost:5000" ("/storage/" +:+ id +:+ ".pdf"))
    /\ boxes (fst r) = [] /\ selectedIds (fst r) = ∅
    /\ uploads (snd r) = uploads w ++ [d]
    /\ u_pdfId d = id /\ u_pdfHash d = sha256Hex scan
    /\ storage (snd r) !! (id +:+ ".pdf") = Some scan
    /\ check_pdf (Some (sha256Hex scan)) (snd r) = (200%nat, CFound (u_pdfPath d) d).
Proof.
  intros w r.
  assert (Hh : sha256Hex scan <> EmptyString) by discriminate.
  exact (upload_new_is_recorded (lib := Toy.lib) "http://localhost:5000" "my scan.pdf"
           scan true 12 (initial (ofZ 800)) w Hh eq_refl eq_refl).
Defined.

(** ** More on the geometry *)







(** ** The hash of the editor without [crypto.subtle] *)

Lemma unhex_hex_byte (b : Byte.byte) (r : string) :
  unhex (hex_byte b +:+ r) = (rest ← unhex r; Some (b :: rest)).
Proof. destruct b; reflexivity. Qed.

Lemma unhex_hex (buf : bytes) : unhex (hex_of_bytes buf) = Some buf.
Proof.
  induction buf as [|b buf IH]; [reflexivity|].
  cbn [hex_of_bytes]. now rewrite unhex_hex_byte, IH.
Qed.

(** X29: where the browser has no [crypto.subtle], the hash
    [sha256HexOfFile] sends is the file itself written in hexadecimal, two
    digits for each byte: it can be read back, so two files get the same
    hash only if they are the same bytes, and it is empty only for an empty
    file. *)
Theorem fallback_hash_is_the_file {lib : PdfLib} (content : bytes) :
  unhex (sha256HexOfFile false content) = Some content
  /\ String.length (sha256HexOfFile false content) = (2 * length content)%nat
  /\ (forall other, sha256HexOfFile false other = sha256HexOfFile false content ->
        other = content)
  /\ (sha256HexOfFile false content = EmptyString <-> content = []).
Proof.
  unfold sha256HexOfFile. split; [apply unhex_hex|]. split; [|split].
  - induction content as [|b buf IH]; [reflexivity|].
    cbn [hex_of_bytes length]. rewrite append_length, IH. cbn. lia.
  - intros other E. apply (f_equal unhex) in E. rewrite !unhex_hex in E.
    now injection E.
  - split; [|now intros ->].
    destruct content as [|b buf]; [reflexivity|]. cbn [hex_of_bytes]. discriminate.
Qed.

(** ** A [pdfId] without a file *)


